(** * Git submodule dependency submission: manifest parsing, version
    resolution, package coordinates and the dependency listing.

    A shallow embedding of [helpers.ts] and [index.ts].  Strings are
    sequences of 8-bit character codes; exceptions are values of an error
    monad; the file system, the process runner and the action inputs are the
    fields of an environment record. *)

From Stdlib Require Import Ascii String.
From stdpp Require Import base option list strings gmap pretty.

(** ** Exceptions *)

(** The conditions a run can abort with.  The source throws [Error] objects
    that differ by their message; the constructors are named after the
    condition each message reports. *)
Inductive Error : Type :=
  | ManifestNotFound (manifestPath : string)
      (* `${manifestPath} is not a .gitmodules file or it does not exist!` *)
  | VersionResolutionFailed            (* 'Failed to execute git' *)
  | IncompleteSubmodule                (* 'Incomplete Submodule detected' *)
  | UnsupportedHost (type : option string)
      (* `${type} submodule type not supported` *)
  | AssertionFailed
      (* 'assertion failed: expected all direct dependencies ...' *)
  | TypeError                          (* a property read on undefined *)
  | InvalidPurl                        (* thrown by the PackageURL constructor *)
  | External (message : string).       (* thrown by fs or by the process runner *)

Inductive Res (A : Type) : Type :=
  | OK (a : A)
  | Throw (e : Error).
Arguments OK {A} a.
Arguments Throw {A} e.

(** Sequencing: an exception of the first computation skips the rest. *)
Definition andThen {A B : Type} (r : Res A) (k : A → Res B) : Res B :=
  match r with
  | OK a => k a
  | Throw e => Throw e
  end.

Notation "'let!' x ':=' e 'in' k" := (andThen e (fun x => k))
  (at level 10, x name, e at level 200, k at level 200).

#[global] Instance Error_eq_dec : EqDecision Error.
Proof. solve_decision. Defined.

(** ** String primitives of the JavaScript runtime *)

(** [s.includes(pat)]: [pat] occurs in [s] as a contiguous run. *)
Fixpoint includes (s pat : string) : bool :=
  String.prefix pat s ||
  match s with
  | EmptyString => false
  | String _ s' => includes s' pat
  end.

(** [s.split(sep)] for a separator of one character.  The result is never
    empty: a string without the separator is returned whole. *)
Fixpoint split (sep : ascii) (s : string) : list string :=
  match s with
  | EmptyString => [EmptyString]
  | String c s' =>
      if Ascii.eqb c sep then EmptyString :: split sep s'
      else match split sep s' with
           | piece :: pieces => String c piece :: pieces
           | [] => [String c EmptyString]
           end
  end.

(** [lines.join(sep)], the inverse of [split] on pieces free of [sep]. *)
Fixpoint join (sep : ascii) (pieces : list string) : string :=
  match pieces with
  | [] => EmptyString
  | [piece] => piece
  | piece :: rest => piece +:+ String sep (join sep rest)
  end.

(** White space in the sense of [String.prototype.trim], restricted to the
    character codes below 256: TAB, LF, VT, FF, CR, SP and NBSP. *)
Definition isWhiteSpace (c : ascii) : bool :=
  bool_decide (nat_of_ascii c ∈ [9; 10; 11; 12; 13; 32; 160]).

Fixpoint trimStart (s : string) : string :=
  match s with
  | EmptyString => EmptyString
  | String c s' => if isWhiteSpace c then trimStart s' else s
  end.

Fixpoint trimEnd (s : string) : string :=
  match s with
  | EmptyString => EmptyString
  | String c s' =>
      match trimEnd s' with
      | EmptyString => if isWhiteSpace c then EmptyString else String c EmptyString
      | kept => String c kept
      end
  end.

Definition trim (s : string) : string := trimEnd (trimStart s).

(** [parts[1]] where the guard of the caller makes the index defined
    (lemma [second_defined]); [parts[0]] of a [split] is always defined. *)
Definition second (parts : list string) : string := nth 1 parts EmptyString.
Definition first (parts : list string) : string := nth 0 parts EmptyString.

(** ** Data model *)

(** Type definition for a Git Submodule. *)
Record Submodule : Type := mkSubmodule {
  name : string;
  path : string;
  url : string;
  tag : string
}.

#[global] Instance Submodule_eq_dec : EqDecision Submodule.
Proof. solve_decision. Defined.

(** The accumulator the parser starts every record from. *)
Definition emptySubmodule : Submodule :=
  {| name := ""; path := ""; url := ""; tag := "" |}.

(** Modelled from the spec: the [PackageURL] class of packageurl-js is not
    part of the sources.  A Coordinate has a type, a namespace, a name and a
    version (the qualifiers and the subpath are always [null] here). *)
Record PackageURL : Type := mkPackageURL {
  purl_type : string;
  purl_namespace : option string;
  purl_name : string;
  purl_version : string
}.

#[global] Instance PackageURL_eq_dec : EqDecision PackageURL.
Proof. solve_decision. Defined.

#[global] Instance PackageURL_countable : Countable PackageURL.
Proof.
  refine (inj_countable'
    (fun p => (purl_type p, purl_namespace p, purl_name p, purl_version p))
    (fun t => match t with (ty, ns, nm, v) => mkPackageURL ty ns nm v end) _).
  intros []; reflexivity.
Defined.

(** Modelled from the spec: the constructor of [PackageURL] is not part of
    the sources.  Every field of a Coordinate must be non-empty, else the
    construction fails. *)
Definition new_PackageURL (type : string) (namespace : option string)
    (nm version : string) : Res PackageURL :=
  if bool_decide (type = "" ∨ namespace = None ∨ namespace = Some "" ∨
                  nm = "" ∨ version = "")
  then Throw InvalidPurl
  else OK (mkPackageURL type namespace nm version).

(** Modelled from the spec: the [Package] class of the dependency submission
    toolkit is not part of the sources.  A package wraps its coordinate and
    [name()] is the name of that coordinate. *)
Record Package : Type := mkPackage { packageURL : PackageURL }.

Definition new_Package (purl : PackageURL) : Package := mkPackage purl.
Definition Package_name (dep : Package) : string := purl_name (packageURL dep).

(** Modelled from the spec: the [PackageCache] class of the dependency
    submission toolkit is not part of the sources.  The CoordinateIndex is a
    mapping from Coordinate, compared structurally, to the record built for
    it; a later insertion for the same Coordinate overwrites the earlier one,
    and a lookup returns the associated record or an absent result. *)
Definition PackageCache_package (cache : gmap PackageURL Package)
    (purl : PackageURL) : gmap PackageURL Package :=
  <[purl := new_Package purl]> cache.

Definition PackageCache_lookupPackage (cache : gmap PackageURL Package)
    (purl : PackageURL) : option Package :=
  cache !! purl.

(** ** CoordinateBuilder *)

(** This function receives a Submodule object and generates a Package-URL
    (PURL) object in return.  [url.split('/')[4]] is read with [.split]
    applied to it, which throws when the index is undefined; the indices 2
    and 3 are only compared and stored. *)
Definition processSubmodule (submodule : Submodule) : Res PackageURL :=
  if bool_decide (name submodule = "" ∨ path submodule = "" ∨
                  url submodule = "" ∨ tag submodule = "")
  then Throw IncompleteSubmodule
  else
    let type := split "/"%char (url submodule) !! 2%nat in
    let namespace := split "/"%char (url submodule) !! 3%nat in
    match split "/"%char (url submodule) !! 4%nat with
    | None => Throw TypeError
    | Some repository =>
        let nm := first (split "."%char repository) in
        match type with
        | Some host =>
            if bool_decide (host = "github.com")
            then new_PackageURL (first (split "."%char host)) namespace nm
                                (tag submodule)
            else Throw (UnsupportedHost type)
        | None => Throw (UnsupportedHost type)
        end
    end.

(** Function to generate an array of PURLs given an array of Submodule
    objects: the [forEach] pushes one coordinate per record and stops at the
    first exception. *)
Fixpoint processSubmoduleUrls_from (purls : list PackageURL)
    (submodules : list Submodule) : Res (list PackageURL) :=
  match submodules with
  | [] => OK purls
  | submodule :: rest =>
      let! purl := processSubmodule submodule in
      processSubmoduleUrls_from (purls ++ [purl]) rest
  end.

Definition processSubmoduleUrls (submodules : list Submodule)
    : Res (list PackageURL) :=
  processSubmoduleUrls_from [] submodules.

(** Function to generate a PackageCache object from an array of Submodule
    objects. *)
Fixpoint processSubmoduleCache_from (cache : gmap PackageURL Package)
    (submodules : list Submodule) : Res (gmap PackageURL Package) :=
  match submodules with
  | [] => OK cache
  | submodule :: rest =>
      let! purl := processSubmodule submodule in
      processSubmoduleCache_from (PackageCache_package cache purl) rest
  end.

Definition processSubmoduleCache (submodules : list Submodule)
    : Res (gmap PackageURL Package) :=
  processSubmoduleCache_from ∅ submodules.

(** ** The environment of a run *)

(** What [exec.getExecOutput] resolves with. *)
Record ExecOutput : Type := mkExecOutput {
  exitCode : Z;
  stdout : string;
  stderr : string
}.

(** A call into a collaborator returns a value or fails with an exception of
    its own, which the code never catches. *)
Inductive Outcome (A : Type) : Type :=
  | Returned (a : A)
  | Failed (message : string).
Arguments Returned {A} a.
Arguments Failed {A} message.

Definition call {A : Type} (o : Outcome A) : Res A :=
  match o with
  | Returned a => OK a
  | Failed message => Throw (External message)
  end.

(** The collaborators the code reaches through imported modules: [path],
    [fs], the external commands run through [@actions/exec], and
    [@actions/core], and the version string read from package.json.
    [exec_process command args directory] is what the command does when it
    is run in the directory: it ends with an exit status and its outputs, or
    it cannot be started. *)
Record Env : Type := mkEnv {
  path_normalize : string → string;
  path_basename : string → string;
  fs_existsSync : string → bool;
  fs_readFileSync : string → Outcome string;
  exec_process : string → list string → string → Outcome ExecOutput;
  core_getInput : string → string;
  package_version : string
}.

(** The options of [exec.getExecOutput] that matter here; the source passes
    the working directory only, so [ignoreReturnCode] has its default. *)
Record ExecOptions : Type := mkExecOptions {
  cwd : string;
  ignoreReturnCode : bool
}.

(** The message of the exception for a command that ended with a non-zero
    exit status. *)
Definition exitMessage (commandLine : string) (output : ExecOutput) : string :=
  "The process '" +:+ commandLine +:+ "' failed with exit code " +:+
  pretty (exitCode output).

(** Modelled from the spec: [exec.getExecOutput] of @actions/exec is not
    part of the sources.  It executes a command against a working directory
    and gives its exit status, standard output and standard error; unless the
    option [ignoreReturnCode] is set, the promise of a command that ends with
    a non-zero exit status is rejected, and the caller receives no output. *)
Definition exec_getExecOutput (env : Env) (commandLine : string)
    (args : list string) (options : ExecOptions) : Res ExecOutput :=
  match exec_process env commandLine args (cwd options) with
  | Failed message => Throw (External message)
  | Returned output =>
      if bool_decide (exitCode output ≠ 0%Z) && negb (ignoreReturnCode options)
      then Throw (External (exitMessage commandLine output))
      else OK output
  end.

(** ** VersionResolver *)

(** This function receives the path to a git submodule (relative to the root
    of the repository) and returns the closest tag and sha currently in
    use. *)
Definition processSubmoduleTag (env : Env) (modulePath : string) : Res string :=
  let submodulePath := path_normalize env modulePath in
  let! described :=
    exec_getExecOutput env "git" ["describe"; "--tags"]
      {| cwd := submodulePath; ignoreReturnCode := false |} in
  if bool_decide (exitCode described ≠ 0%Z) then
    let! hashed :=
      exec_getExecOutput env "git" ["rev-parse"; "--short"; "HEAD"]
        {| cwd := submodulePath; ignoreReturnCode := false |} in
    if bool_decide (exitCode hashed ≠ 0%Z) then Throw VersionResolutionFailed
    else OK (stdout hashed)
  else OK (stdout described).

(** ** [Promise.all] *)

(** The promises of an array settle in an order the program does not choose.
    [settle] runs the reactions in a given completion order: a fulfilment
    with index [i] stores its value in slot [i] of the result array, the
    first rejection rejects the whole; a promise settles once, so an index
    met again is skipped. *)
Fixpoint settle {A : Type} (promises : list (Res A)) (order : list nat)
    (values : list (option A)) : Res (list (option A)) :=
  match order with
  | [] => OK values
  | i :: later =>
      match values !! i, promises !! i with
      | Some None, Some (OK v) => settle promises later (<[i := Some v]> values)
      | Some None, Some (Throw e) => Throw e
      | _, _ => settle promises later values
      end
  end.

(** [Promise.all(promises)] under the completion order [order]; the promises
    that [order] leaves out settle after it, so every list is an order. *)
Definition Promise_all {A : Type} (order : list nat) (promises : list (Res A))
    : Res (list A) :=
  let! values := settle promises (order ++ seq 0 (length promises))
                  (replicate (length promises) None) in
  OK (omap id values).

(** ** ManifestParser *)

Definition dquote : ascii := "034"%char.

(** The three markers the scan looks for in a line. *)
Definition sectionMarker : string := "submodule " +:+ String dquote EmptyString.
Definition pathMarker : string := "path =".
Definition urlMarker : string := "url =".

(** The [if] / [else if] chain of the loop body: at most one field is
    assigned per line, and only a field that is still empty. *)
Definition assignField (submodule : Submodule) (line : string) : Submodule :=
  if bool_decide (name submodule = "") && includes line sectionMarker then
    {| name := second (split dquote line); path := path submodule;
       url := url submodule; tag := tag submodule |}
  else if bool_decide (path submodule = "") && includes line pathMarker then
    {| name := name submodule; path := trim (second (split "="%char line));
       url := url submodule; tag := tag submodule |}
  else if bool_decide (url submodule = "") && includes line urlMarker then
    {| name := name submodule; path := path submodule;
       url := trim (second (split "="%char line)); tag := tag submodule |}
  else submodule.

(** Verify if we have all the information we need. *)
Definition hasAllFields (submodule : Submodule) : bool :=
  bool_decide (name submodule ≠ "") && bool_decide (path submodule ≠ "") &&
  bool_decide (url submodule ≠ "").

(** The [for] loop over the lines of the manifest: [submodule] is the record
    under construction and [submodules] the records pushed so far; the
    result is the value of both variables after the loop.  A pushed record is
    not touched again by the loop, since the variable is bound to a fresh
    object right after the push. *)
Fixpoint scanLines (submodules : list Submodule) (submodule : Submodule)
    (manifestLines : list string) : list Submodule * Submodule :=
  match manifestLines with
  | [] => (submodules, submodule)
  | line :: rest =>
      let submodule := assignField submodule line in
      if hasAllFields submodule
      then scanLines (submodules ++ [submodule]) emptySubmodule rest
      else scanLines submodules submodule rest
  end.

Definition scanManifest (manifestFile : string) : list Submodule :=
  fst (scanLines [] emptySubmodule (split "010"%char manifestFile)).

(** Add the tag information to the existing submodules:
    [tags.forEach((tag, index) => submodules[index].tag = tag)]. *)
Definition setTag (submodule : Submodule) (version : string) : Submodule :=
  {| name := name submodule; path := path submodule; url := url submodule;
     tag := version |}.

Fixpoint writeTags (tags : list string) (index : nat)
    (submodules : list Submodule) : Res (list Submodule) :=
  match tags with
  | [] => OK submodules
  | version :: rest =>
      match submodules !! index with
      | None => Throw TypeError
      | Some submodule =>
          writeTags rest (S index) (<[index := setTag submodule version]> submodules)
      end
  end.

(** Receives a manifest file (.gitmodules) and extract the relevant
    information for each submodule.  [order] is the order in which the
    version resolutions dispatched by [Promise.all] complete. *)
Definition parseSubmoduleManifest (env : Env) (order : list nat)
    (manifest : string) : Res (list Submodule) :=
  let manifestPath := path_normalize env manifest in
  if bool_decide (path_basename env manifestPath ≠ ".gitmodules") ||
     negb (fs_existsSync env manifestPath)
  then Throw (ManifestNotFound manifestPath)
  else
    let! manifestFile := call (fs_readFileSync env manifestPath) in
    let submodules := scanManifest manifestFile in
    let! tags := Promise_all order
             ((λ submodule, processSubmoduleTag env (path submodule)) <$> submodules) in
    writeTags tags 0 submodules.

(** ** The dependency listing assembled by [main] *)

Inductive DependencyScope : Type := runtime | development.

#[global] Instance DependencyScope_eq_dec : EqDecision DependencyScope.
Proof. solve_decision. Defined.

(** Modelled from the spec: the [Manifest] and [Snapshot] classes of the
    dependency submission toolkit are not part of the sources.  The
    dependency listing associates each Coordinate with the package added for
    it as a direct dependency and with its scope; the snapshot wraps the
    listing with the identification of the tool. *)
Record Dependency : Type := mkDependency {
  dep_package : Package;
  dep_scope : DependencyScope
}.

Record Manifest : Type := mkManifest {
  manifest_name : string;
  manifest_file : string;
  resolved : gmap PackageURL Dependency
}.

Record Snapshot : Type := mkSnapshot {
  detector_name : string;
  detector_url : string;
  detector_version : string;
  manifests : list Manifest
}.

Definition new_Manifest (nm file : string) : Manifest :=
  {| manifest_name := nm; manifest_file := file; resolved := ∅ |}.

Definition Manifest_addDirectDependency (manifest : Manifest) (dep : Package)
    (scope : DependencyScope) : Manifest :=
  {| manifest_name := manifest_name manifest;
     manifest_file := manifest_file manifest;
     resolved := <[packageURL dep := mkDependency dep scope]> (resolved manifest) |}.

(** Find out whether the dependency is a runtime or development one. *)
Definition scopeOf (developmentDeps : string) (dep : Package) : DependencyScope :=
  if includes developmentDeps (Package_name dep) then development else runtime.

(** The body of [purls.forEach] in [main]. *)
Definition addPurl (modulesCache : gmap PackageURL Package)
    (developmentDeps : string) (manifest : Manifest) (purl : PackageURL)
    : Res Manifest :=
  match PackageCache_lookupPackage modulesCache purl with
  | None => Throw AssertionFailed
  | Some dep =>
      OK (Manifest_addDirectDependency manifest dep (scopeOf developmentDeps dep))
  end.

Fixpoint addPurls (modulesCache : gmap PackageURL Package)
    (developmentDeps : string) (manifest : Manifest) (purls : list PackageURL)
    : Res Manifest :=
  match purls with
  | [] => OK manifest
  | purl :: rest =>
      let! manifest := addPurl modulesCache developmentDeps manifest purl in
      addPurls modulesCache developmentDeps manifest rest
  end.

(** [main] of index.ts; the result is the snapshot handed to
    [submitSnapshot]. *)
Definition main (env : Env) (order : list nat) : Res Snapshot :=
  let manifestPath := core_getInput env "manifest" in
  let! submoduleList := parseSubmoduleManifest env order manifestPath in
  let! purls := processSubmoduleUrls submoduleList in
  let! modulesCache := processSubmoduleCache submoduleList in
  let developmentDeps := core_getInput env "development-deps" in
  let manifest := new_Manifest (path_basename env manifestPath) manifestPath in
  let! manifest := addPurls modulesCache developmentDeps manifest purls in
  OK {| detector_name := "TF-RMM/git-submodule-dependency-submission";
        detector_url :=
          "https://github.com/TF-RMM/arm-git-submodule-dependency-submission";
        detector_version := package_version env;
        manifests := [manifest] |}.

(** ** A concrete environment *)

Definition tab : string := String "009"%char EmptyString.

Definition sectionHeader (nm : string) : string :=
  "[" +:+ sectionMarker +:+ nm +:+ String dquote "]".
Definition pathLine (value : string) : string := tab +:+ "path = " +:+ value.
Definition urlLine (value : string) : string := tab +:+ "url = " +:+ value.

(** The last segment of a path, for paths without a trailing slash. *)
Definition lastSegment (p : string) : string :=
  List.last (split "/"%char p) EmptyString.

(** A repository whose file system holds one manifest, with three
    checkouts: libs/dep-a carries the tag v1.2.3, libs/dep-b the tag v0.9.0,
    and in libs/dep-c git ends with a failure. *)
Definition exampleEnv (manifestFile developmentDeps : string) : Env :=
  {| path_normalize := id;
     path_basename := lastSegment;
     fs_existsSync := λ p, bool_decide (p = ".gitmodules");
     fs_readFileSync := λ p,
       if bool_decide (p = ".gitmodules") then Returned manifestFile
       else Failed "ENOENT";
     exec_process := λ command args directory,
       match args with
       | ["describe"; "--tags"] =>
           if bool_decide (directory = "libs/dep-a")
           then Returned (mkExecOutput 0 "v1.2.3" "")
           else if bool_decide (directory = "libs/dep-b")
           then Returned (mkExecOutput 0 "v0.9.0" "")
           else Returned (mkExecOutput 128 "" "fatal: not a git repository")
       | ["rev-parse"; "--short"; "HEAD"] =>
           if bool_decide (directory = "libs/dep-c")
           then Returned (mkExecOutput 128 "" "fatal: not a git repository")
           else Returned (mkExecOutput 0 "abc1234" "")
       | _ => Failed "unexpected command"
       end;
     core_getInput := λ input,
       if bool_decide (input = "manifest") then ".gitmodules"
       else if bool_decide (input = "development-deps") then developmentDeps
       else "";
     package_version := "1.0.0" |}.

Definition lineFeed : string := String "010"%char EmptyString.

(** A checkout without any tag, with git's answers as git prints them: the
    tag command ends with the status 128, the hash command would print the
    short hash and a line feed. *)
Definition untaggedEnv : Env :=
  {| path_normalize := id;
     path_basename := lastSegment;
     fs_existsSync := λ p, bool_decide (p = ".gitmodules");
     fs_readFileSync := λ p, Failed "ENOENT";
     exec_process := λ command args directory,
       match args with
       | ["describe"; "--tags"] =>
           Returned (mkExecOutput 128 ""
                       "fatal: No names found, cannot describe anything.")
       | ["rev-parse"; "--short"; "HEAD"] =>
           Returned (mkExecOutput 0 ("abc1234" +:+ lineFeed) "")
       | _ => Failed "unexpected command"
       end;
     core_getInput := λ input, "";
     package_version := "1.0.0" |}.

(** A checkout with a tag: the tag command prints the tag and a line
    feed. *)
Definition taggedEnv : Env :=
  {| path_normalize := id;
     path_basename := lastSegment;
     fs_existsSync := λ p, bool_decide (p = ".gitmodules");
     fs_readFileSync := λ p, Failed "ENOENT";
     exec_process := λ command args directory,
       match args with
       | ["describe"; "--tags"] =>
           Returned (mkExecOutput 0 ("v1.2.3" +:+ lineFeed) "")
       | ["rev-parse"; "--short"; "HEAD"] =>
           Returned (mkExecOutput 0 ("abc1234" +:+ lineFeed) "")
       | _ => Failed "unexpected command"
       end;
     core_getInput := λ input, "";
     package_version := "1.0.0" |}.

Definition exampleManifest : string :=
  join "010"%char
    [sectionHeader "dep-a"; pathLine "libs/dep-a";
     urlLine "https://github.com/org/dep-a.git";
     sectionHeader "dep-b"; pathLine "libs/dep-b";
     urlLine "https://github.com/org/dep-b.git"; ""].

(** A manifest whose first section has no url assignment. *)
Definition mixedManifest : string :=
  join "010"%char
    [sectionHeader "dep-a"; pathLine "libs/dep-a";
     sectionHeader "dep-b"; pathLine "libs/dep-b";
     urlLine "https://github.com/org/dep-b.git"; ""].

(** A manifest whose last section has no url assignment. *)
Definition tailManifest : string :=
  join "010"%char
    [sectionHeader "dep-a"; pathLine "libs/dep-a";
     urlLine "https://github.com/org/dep-a.git";
     sectionHeader "dep-b"; pathLine "libs/dep-b"; ""].

(** A manifest with a checkout in which git fails. *)
Definition brokenManifest : string :=
  join "010"%char
    [sectionHeader "dep-a"; pathLine "libs/dep-a";
     urlLine "https://github.com/org/dep-a.git";
     sectionHeader "dep-c"; pathLine "libs/dep-c";
     urlLine "https://github.com/org/dep-c.git"; ""].

(** ** Manifests as git writes them *)

(** [freeOf c s]: the character [c] does not occur in [s]. *)
Fixpoint freeOf (c : ascii) (s : string) : bool :=
  match s with
  | EmptyString => true
  | String d s' => negb (Ascii.eqb d c) && freeOf c s'
  end.

Fixpoint allWhiteSpace (s : string) : bool :=
  match s with
  | EmptyString => true
  | String c s' => isWhiteSpace c && allWhiteSpace s'
  end.

(** A line of the body of a section: an assignment of the path, an
    assignment of the url, or any other line (a blank line, a comment, an
    assignment of another key). *)
Inductive BodyLine : Type :=
  | PathAssignment (indent value : string)
  | UrlAssignment (indent value : string)
  | OtherLine (text : string).

Definition renderLine (l : BodyLine) : string :=
  match l with
  | PathAssignment indent value => indent +:+ pathMarker +:+ value
  | UrlAssignment indent value => indent +:+ urlMarker +:+ value
  | OtherLine text => text
  end.

Record ManifestSection : Type := mkSection {
  sectionName : string;
  sectionBody : list BodyLine
}.

Definition sectionLines (sec : ManifestSection) : list string :=
  sectionHeader (sectionName sec) :: (renderLine <$> sectionBody sec).

(** The lines of a manifest: the lines before the first section, then the
    sections. *)
Definition manifestLinesOf (preamble : list string)
    (sections : list ManifestSection) : list string :=
  preamble ++ concat (sectionLines <$> sections).

Definition manifestText (preamble : list string)
    (sections : list ManifestSection) : string :=
  join "010"%char (manifestLinesOf preamble sections).

(** A line that belongs to no record: it holds none of the three markers. *)
Definition neutralLine (text : string) : bool :=
  negb (includes text sectionMarker) && negb (includes text pathMarker) &&
  negb (includes text urlMarker) && freeOf "010"%char text.

(** An assigned value: on one line, without a second equals sign, not
    blank. *)
Definition assignedValue (value : string) : bool :=
  freeOf "="%char value && freeOf "010"%char value &&
  negb (String.eqb (trim value) EmptyString).

Definition indentation (indent : string) : bool :=
  allWhiteSpace indent && freeOf "010"%char indent.

Definition wellFormedLine (l : BodyLine) : bool :=
  match l with
  | PathAssignment indent value => indentation indent && assignedValue value
  | UrlAssignment indent value => indentation indent && assignedValue value
  | OtherLine text => neutralLine text
  end.

Definition isPath (l : BodyLine) : bool :=
  match l with PathAssignment _ _ => true | _ => false end.
Definition isUrl (l : BodyLine) : bool :=
  match l with UrlAssignment _ _ => true | _ => false end.

Definition countIf (p : BodyLine → bool) (body : list BodyLine) : nat :=
  length (List.filter p body).

(** A complete section: a quoted name, and in its body exactly one
    assignment of the path and one of the url, in any order and among any
    other lines. *)
Definition completeSection (sec : ManifestSection) : bool :=
  negb (String.eqb (sectionName sec) EmptyString) &&
  freeOf dquote (sectionName sec) && freeOf "010"%char (sectionName sec) &&
  forallb wellFormedLine (sectionBody sec) &&
  (countIf isPath (sectionBody sec) =? 1)%nat &&
  (countIf isUrl (sectionBody sec) =? 1)%nat.

Fixpoint pathValue (body : list BodyLine) : string :=
  match body with
  | PathAssignment _ value :: _ => value
  | _ :: rest => pathValue rest
  | [] => EmptyString
  end.

Fixpoint urlValue (body : list BodyLine) : string :=
  match body with
  | UrlAssignment _ value :: _ => value
  | _ :: rest => urlValue rest
  | [] => EmptyString
  end.

(** The record a complete section stands for, before its version is
    resolved. *)
Definition recordOf (sec : ManifestSection) : Submodule :=
  {| name := sectionName sec; path := trim (pathValue (sectionBody sec));
     url := trim (urlValue (sectionBody sec)); tag := EmptyString |}.

(** The record under construction [acc] once the assignments of [body] that
    it still lacks are read. *)
Definition fill (acc : Submodule) (body : list BodyLine) : Submodule :=
  {| name := name acc;
     path := if bool_decide (path acc = "") then trim (pathValue body) else path acc;
     url := if bool_decide (url acc = "") then trim (urlValue body) else url acc;
     tag := tag acc |}.

(** A record with every field set. *)
Definition isComplete (submodule : Submodule) : Prop :=
  name submodule ≠ "" ∧ path submodule ≠ "" ∧ url submodule ≠ "" ∧
  tag submodule ≠ "".

(** The records of the example checkouts. *)
Definition recordA : Submodule :=
  {| name := "dep-a"; path := "libs/dep-a";
     url := "https://github.com/org/dep-a.git"; tag := "v1.2.3" |}.
Definition recordB : Submodule :=
  {| name := "dep-b"; path := "libs/dep-b";
     url := "https://github.com/org/dep-b.git"; tag := "v0.9.0" |}.

(** Two complete sections: the second assigns the url before the path, has
    a line for another key, and white space around its values. *)
Definition exampleSections : list ManifestSection :=
  [ {| sectionName := "dep-a";
       sectionBody := [PathAssignment tab " libs/dep-a";
                       UrlAssignment tab " https://github.com/org/dep-a.git"] |};
    {| sectionName := "dep-b";
       sectionBody := [UrlAssignment "    " "   https://github.com/org/dep-b.git  ";
                       OtherLine (tab +:+ "branch = main");
                       PathAssignment tab (" libs/dep-b" +:+ tab);
                       OtherLine ""] |} ].

(** The coordinates of the example records. *)
Definition purlA : PackageURL :=
  {| purl_type := "github"; purl_namespace := Some "org";
     purl_name := "dep-a"; purl_version := "v1.2.3" |}.
Definition purlB : PackageURL :=
  {| purl_type := "github"; purl_namespace := Some "org";
     purl_name := "dep-b"; purl_version := "v0.9.0" |}.

(** A manifest with one submodule, whose repository is named dep. *)
Definition shortNameManifest : string :=
  join "010"%char
    [sectionHeader "dep"; pathLine "libs/dep-b";
     urlLine "https://github.com/org/dep.git"; ""].

Definition purlDep : PackageURL :=
  {| purl_type := "github"; purl_namespace := Some "org";
     purl_name := "dep"; purl_version := "v0.9.0" |}.

(** The entry [main] adds to the listing for a coordinate. *)
Definition entryOf (developmentDeps : string) (purl : PackageURL) : Dependency :=
  mkDependency (new_Package purl) (scopeOf developmentDeps (new_Package purl)).

(** The listings and the snapshot of the example runs. *)
Definition exampleListing : Manifest :=
  {| manifest_name := ".gitmodules"; manifest_file := ".gitmodules";
     resolved := <[purlB := entryOf "dep-a" purlB]>
                   (<[purlA := entryOf "dep-a" purlA]> ∅) |}.

Definition shortNameListing : Manifest :=
  {| manifest_name := ".gitmodules"; manifest_file := ".gitmodules";
     resolved := <[purlDep := entryOf "dep-a" purlDep]> ∅ |}.

Definition exampleSnapshot (listing : Manifest) : Snapshot :=
  {| detector_name := "TF-RMM/git-submodule-dependency-submission";
     detector_url :=
       "https://github.com/TF-RMM/arm-git-submodule-dependency-submission";
     detector_version := "1.0.0";
     manifests := [listing] |}.

(** The number of base fields the record under construction has. *)
Definition fieldsSet (submodule : Submodule) : nat :=
  (if bool_decide (name submodule = "") then 0 else 1) +
  (if bool_decide (path submodule = "") then 0 else 1) +
  (if bool_decide (url submodule = "") then 0 else 1).

(** What the scan guarantees of the text of a record: the name lies between
    two quotes of a line, the path and the url between two equals signs or
    line ends, with the white space around them removed. *)
Definition cleanRecord (r : Submodule) : Prop :=
  freeOf dquote (name r) = true ∧ freeOf "010"%char (name r) = true ∧
  freeOf "="%char (path r) = true ∧ freeOf "010"%char (path r) = true ∧
  freeOf "="%char (url r) = true ∧ freeOf "010"%char (url r) = true ∧
  trim (path r) = path r ∧ trim (url r) = url r.

(** A repository in which git answers with success and prints nothing. *)
Definition silentEnv (manifestFile : string) : Env :=
  {| path_normalize := id;
     path_basename := lastSegment;
     fs_existsSync := λ p, bool_decide (p = ".gitmodules");
     fs_readFileSync := λ p,
       if bool_decide (p = ".gitmodules") then Returned manifestFile
       else Failed "ENOENT";
     exec_process := λ command args directory, Returned (mkExecOutput 0 "" "");
     core_getInput := λ input,
       if bool_decide (input = "manifest") then ".gitmodules" else "";
     package_version := "1.0.0" |}.

(** The listing of the example run when the development-deps input is
    the list cpputest,dep-b, and when it is empty. *)
Definition listedListing : Manifest :=
  {| manifest_name := ".gitmodules"; manifest_file := ".gitmodules";
     resolved := <[purlB := entryOf "cpputest,dep-b" purlB]>
                   (<[purlA := entryOf "cpputest,dep-b" purlA]> ∅) |}.

Definition runtimeListing : Manifest :=
  {| manifest_name := ".gitmodules"; manifest_file := ".gitmodules";
     resolved := <[purlB := entryOf "" purlB]> (<[purlA := entryOf "" purlA]> ∅) |}.

(** A url on github.com with a namespace and a repository name. *)
Definition githubUrl (address : string) : Prop :=
  ∃ scheme authority namespace repository rest,
    split "/"%char address =
      scheme :: authority :: "github.com" :: namespace :: repository :: rest ∧
    namespace ≠ "" ∧ first (split "."%char repository) ≠ "".

(** ** Properties of the string primitives *)

Section Strings.

Implicit Types (s t pat : string) (c d : ascii).

Lemma split_nonempty c s : split c s ≠ [].
Proof. destruct s as [|d s]; simpl; [done|]. destruct (Ascii.eqb d c); [done|]. by destruct (split c s). Qed.

Lemma split_first_defined c s : ∃ piece, split c s !! 0%nat = Some piece.
Proof. pose proof (split_nonempty c s). destruct (split c s); [done|eauto]. Qed.

Lemma freeOf_app c s t : freeOf c (s +:+ t) = freeOf c s && freeOf c t.
Proof. induction s as [|d s IH]; simpl; [done|]. by rewrite IH, andb_assoc. Qed.

Lemma split_free c s : freeOf c s = true → split c s = [s].
Proof.
  induction s as [|d s IH]; simpl; [done|].
  intros [Hd Hs]%andb_true_iff. apply negb_true_iff in Hd. rewrite Hd.
  by rewrite IH.
Qed.

Lemma split_app c s t :
  freeOf c s = true → split c (s +:+ String c t) = s :: split c t.
Proof.
  induction s as [|d s IH]; simpl.
  - intros _. by rewrite Ascii.eqb_refl.
  - intros [Hd Hs]%andb_true_iff. apply negb_true_iff in Hd. rewrite Hd.
    by rewrite IH.
Qed.

Lemma split_join c (pieces : list string) :
  pieces ≠ [] → Forall (λ piece, freeOf c piece = true) pieces →
  split c (join c pieces) = pieces.
Proof.
  induction pieces as [|piece rest IH]; [done|]. intros _ Hfree.
  apply Forall_cons in Hfree as [Hpiece Hrest].
  destruct rest as [|next rest]; simpl.
  - by apply split_free.
  - rewrite split_app by done. f_equal. by apply IH.
Qed.

Lemma prefix_app pat s : String.prefix pat (pat +:+ s) = true.
Proof.
  induction pat as [|c pat IH]; simpl; [by destruct s|].
  destruct (ascii_dec c c); [done|congruence].
Qed.

Lemma includes_app_r s t pat : includes t pat = true → includes (s +:+ t) pat = true.
Proof.
  intros Ht. induction s as [|c s IH]; simpl; [done|].
  rewrite IH. apply orb_true_r.
Qed.

Lemma includes_prefix s pat : String.prefix pat s = true → includes s pat = true.
Proof. intros H. destruct s; cbn [includes]; by rewrite H. Qed.

Lemma includes_marker s t pat : includes (s +:+ pat +:+ t) pat = true.
Proof. apply includes_app_r, includes_prefix, prefix_app. Qed.

Lemma prefix_free c pat s :
  freeOf c s = true → freeOf c pat = false → String.prefix pat s = false.
Proof.
  revert s. induction pat as [|d pat IH]; intros s Hs Hpat; [done|].
  destruct s as [|e s]; [done|]. cbn in Hs, Hpat |- *.
  apply andb_true_iff in Hs as [He Hs]. apply negb_true_iff in He.
  destruct (ascii_dec d e) as [->|]; [|done].
  rewrite He in Hpat. by apply IH.
Qed.

Lemma includes_free c pat s :
  freeOf c s = true → freeOf c pat = false → includes s pat = false.
Proof.
  intros Hs Hpat. induction s as [|e s IH]; cbn [includes].
  - by rewrite (prefix_free c).
  - rewrite (prefix_free c) by done. cbn in Hs.
    apply andb_true_iff in Hs as [_ Hs]. by apply IH.
Qed.

Lemma includes_cons_ne c d pat s :
  c ≠ d → includes (String c s) (String d pat) = includes s (String d pat).
Proof. intros Hne. simpl. destruct (ascii_dec d c); [congruence|done]. Qed.

End Strings.

(** ** The scan of the manifest *)

Section Scanner.

Implicit Types (submodule acc : Submodule) (submodules out : list Submodule)
  (line : string) (lines : list string).

Lemma scanLines_app out acc lines1 lines2 :
  scanLines out acc (lines1 ++ lines2) =
  scanLines (scanLines out acc lines1).1 (scanLines out acc lines1).2 lines2.
Proof.
  revert out acc. induction lines1 as [|line lines1 IH]; intros out acc; [done|].
  simpl. destruct (hasAllFields (assignField acc line)); apply IH.
Qed.

Lemma assignField_neutral acc line :
  neutralLine line = true → assignField acc line = acc.
Proof.
  unfold neutralLine, assignField.
  intros [[[H1 H2]%andb_true_iff H3]%andb_true_iff _]%andb_true_iff.
  apply negb_true_iff in H1, H2, H3. rewrite H1, H2, H3.
  by rewrite !andb_false_r.
Qed.

Lemma scanLines_neutral out acc lines :
  hasAllFields acc = false → Forall (λ line, neutralLine line = true) lines →
  scanLines out acc lines = (out, acc).
Proof.
  intros Hacc Hlines. induction Hlines as [|line lines Hline _ IH]; [done|].
  simpl. rewrite assignField_neutral by done. by rewrite Hacc.
Qed.

Lemma second_defined c line pat :
  freeOf c pat = false → includes line pat = true →
  ∃ piece, split c line !! 1%nat = Some piece ∧ second (split c line) = piece.
Proof.
  intros Hpat Hin.
  destruct (freeOf c line) eqn:Hline.
  { by rewrite (includes_free c) in Hin. }
  clear Hin Hpat. induction line as [|d line IH]; [done|].
  cbn in Hline |- *. destruct (Ascii.eqb d c) eqn:Hd; simpl in Hline.
  - pose proof (split_nonempty c line). destruct (split c line); [done|]. eauto.
  - destruct (IH Hline) as (piece & H1 & H2).
    destruct (split c line) as [|p1 [|p2 ps]]; try done. eauto.
Qed.

Lemma assignField_header nm :
  freeOf dquote nm = true →
  assignField emptySubmodule (sectionHeader nm) =
  {| name := nm; path := ""; url := ""; tag := "" |}.
Proof.
  intros Hnm. unfold assignField, sectionHeader.
  replace (includes _ sectionMarker) with true
    by (symmetry; apply (includes_marker "[" _ sectionMarker)).
  simpl bool_decide. cbn [andb]. f_equal.
  change ("[" +:+ sectionMarker +:+ nm +:+ String dquote "]")
    with ("[submodule " +:+ String dquote (nm +:+ String dquote "]")).
  rewrite split_app by done. by rewrite split_app.
Qed.

Lemma isWhiteSpace_ne c d : isWhiteSpace c = true → isWhiteSpace d = false → c ≠ d.
Proof. congruence. Qed.

Lemma allWhiteSpace_free indent c :
  allWhiteSpace indent = true → isWhiteSpace c = false → freeOf c indent = true.
Proof.
  intros Hindent Hc. induction indent as [|d indent IH]; [done|].
  cbn in Hindent |- *. apply andb_true_iff in Hindent as [Hd Hindent].
  rewrite IH, andb_true_r by done. apply negb_true_iff, Ascii.eqb_neq.
  by apply isWhiteSpace_ne.
Qed.

Lemma includes_indent indent c pat s :
  allWhiteSpace indent = true → isWhiteSpace c = false →
  includes (indent +:+ s) (String c pat) = includes s (String c pat).
Proof.
  intros Hindent Hc. induction indent as [|d indent IH]; [done|].
  cbn in Hindent. apply andb_true_iff in Hindent as [Hd Hindent].
  change (String d indent +:+ s) with (String d (indent +:+ s)).
  rewrite includes_cons_ne by by apply isWhiteSpace_ne. by apply IH.
Qed.

Lemma append_assoc (s t u : string) : (s +:+ t) +:+ u = s +:+ t +:+ u.
Proof.
  induction s as [|c s IH]; [done|].
  change (String c ((s +:+ t) +:+ u) = String c (s +:+ t +:+ u)). by rewrite IH.
Qed.

(** The value the scan reads from an assignment line. *)
Lemma second_assignment indent key value :
  allWhiteSpace indent = true → freeOf "="%char key = true →
  freeOf "="%char value = true →
  second (split "="%char (indent +:+ (key +:+ "=") +:+ value)) = value.
Proof.
  intros Hindent Hkey Hvalue.
  replace (indent +:+ (key +:+ "=") +:+ value)
    with ((indent +:+ key) +:+ String "="%char value).
  - rewrite split_app.
    + by rewrite split_free.
    + rewrite freeOf_app, Hkey. by rewrite allWhiteSpace_free.
  - by rewrite !append_assoc.
Qed.

Lemma urlLine_no_pathMarker indent value :
  allWhiteSpace indent = true → freeOf "="%char value = true →
  includes (indent +:+ urlMarker +:+ value) pathMarker = false.
Proof.
  intros Hindent Hvalue. unfold pathMarker.
  rewrite includes_indent by done.
  unfold urlMarker.
  change ("url =" +:+ value) with (String "u" (String "r" (String "l" (String " " (String "=" value))))).
  rewrite !includes_cons_ne by done.
  by apply (includes_free "="%char).
Qed.

Lemma indentation_inv indent :
  indentation indent = true → allWhiteSpace indent = true ∧ freeOf "010"%char indent = true.
Proof. by intros ?%andb_true_iff. Qed.

Lemma assignedValue_inv value :
  assignedValue value = true →
  freeOf "="%char value = true ∧ freeOf "010"%char value = true ∧ trim value ≠ "".
Proof.
  intros [[??]%andb_true_iff Ht%negb_true_iff]%andb_true_iff.
  by apply String.eqb_neq in Ht.
Qed.

Lemma assignField_path acc indent value :
  name acc ≠ "" → path acc = "" →
  indentation indent = true → assignedValue value = true →
  assignField acc (renderLine (PathAssignment indent value)) =
  {| name := name acc; path := trim value; url := url acc; tag := tag acc |}.
Proof.
  intros Hname Hpath [Hindent _]%indentation_inv (Hvalue & _ & _)%assignedValue_inv.
  unfold assignField, renderLine.
  rewrite (bool_decide_eq_false_2 _ Hname), (bool_decide_eq_true_2 _ Hpath).
  rewrite includes_marker. cbn [andb].
  change pathMarker with ("path " +:+ "="). by rewrite second_assignment.
Qed.

Lemma assignField_url acc indent value :
  name acc ≠ "" → url acc = "" →
  indentation indent = true → assignedValue value = true →
  assignField acc (renderLine (UrlAssignment indent value)) =
  {| name := name acc; path := path acc; url := trim value; tag := tag acc |}.
Proof.
  intros Hname Hurl [Hindent _]%indentation_inv (Hvalue & _ & _)%assignedValue_inv.
  unfold assignField, renderLine.
  rewrite (bool_decide_eq_false_2 _ Hname), (bool_decide_eq_true_2 _ Hurl).
  rewrite urlLine_no_pathMarker, andb_false_r by done.
  rewrite includes_marker. cbn [andb].
  change urlMarker with ("url " +:+ "="). by rewrite second_assignment.
Qed.

Lemma others_neutral body :
  forallb wellFormedLine body = true →
  countIf isPath body = 0%nat → countIf isUrl body = 0%nat →
  Forall (λ line, neutralLine line = true) (renderLine <$> body).
Proof.
  unfold countIf. induction body as [|[indent value|indent value|text] body IH];
    cbn; intros Hwf Hp Hu; try done.
  apply andb_true_iff in Hwf as [Hline Hwf]. constructor; [done|]. by apply IH.
Qed.

Lemma hasAllFields_true acc :
  hasAllFields acc = true ↔ name acc ≠ "" ∧ path acc ≠ "" ∧ url acc ≠ "".
Proof.
  unfold hasAllFields. rewrite !andb_true_iff, !bool_decide_eq_true. tauto.
Qed.

Lemma hasAllFields_false acc :
  hasAllFields acc = false ↔ name acc = "" ∨ path acc = "" ∨ url acc = "".
Proof.
  rewrite <- not_true_iff_false, hasAllFields_true.
  destruct (decide (name acc = "")), (decide (path acc = "")),
    (decide (url acc = "")); tauto.
Qed.

Lemma scanLines_body out acc body :
  name acc ≠ "" → hasAllFields acc = false →
  forallb wellFormedLine body = true →
  countIf isPath body = (if bool_decide (path acc = "") then 1 else 0)%nat →
  countIf isUrl body = (if bool_decide (url acc = "") then 1 else 0)%nat →
  scanLines out acc (renderLine <$> body) = (out ++ [fill acc body], emptySubmodule).
Proof.
  revert out acc.
  induction body as [|[indent value|indent value|text] body IH];
    intros out acc Hname Hacc Hwf Hp Hu.
  - exfalso. apply hasAllFields_false in Hacc.
    destruct (decide (path acc = "")) as [Hpath|Hpath];
      [by rewrite (bool_decide_eq_true_2 _ Hpath) in Hp|].
    destruct (decide (url acc = "")) as [Hurl|Hurl];
      [by rewrite (bool_decide_eq_true_2 _ Hurl) in Hu|].
    tauto.
  - cbn in Hwf. apply andb_true_iff in Hwf as [[Hindent Hvalue]%andb_true_iff Hwf].
    assert (path acc = "") as Hpath.
    { destruct (decide (path acc = "")) as [|Hne]; [done|].
      by rewrite (bool_decide_eq_false_2 _ Hne) in Hp. }
    rewrite (bool_decide_eq_true_2 _ Hpath) in Hp.
    unfold countIf in Hp, Hu. cbn in Hp, Hu. injection Hp as Hp.
    cbn [fmap list_fmap scanLines]. rewrite assignField_path by done.
    destruct (assignedValue_inv _ Hvalue) as (_ & _ & Htrim).
    destruct (decide (url acc = "")) as [Hurl|Hurl].
    + rewrite (proj2 (hasAllFields_false _)) by (cbn; tauto).
      rewrite IH; cbn; try done.
      * unfold fill; cbn. rewrite (bool_decide_eq_true_2 _ Hpath).
        by rewrite (bool_decide_eq_false_2 _ Htrim).
      * apply hasAllFields_false; cbn; tauto.
      * rewrite (bool_decide_eq_false_2 _ Htrim). exact Hp.
    + rewrite (proj2 (hasAllFields_true _)) by (cbn; tauto).
      rewrite (bool_decide_eq_false_2 _ Hurl) in Hu.
      rewrite scanLines_neutral; [|done|by apply others_neutral].
      unfold fill; cbn. rewrite (bool_decide_eq_true_2 _ Hpath).
      by rewrite (bool_decide_eq_false_2 _ Hurl).
  - cbn in Hwf. apply andb_true_iff in Hwf as [[Hindent Hvalue]%andb_true_iff Hwf].
    assert (url acc = "") as Hurl.
    { destruct (decide (url acc = "")) as [|Hne]; [done|].
      by rewrite (bool_decide_eq_false_2 _ Hne) in Hu. }
    rewrite (bool_decide_eq_true_2 _ Hurl) in Hu.
    unfold countIf in Hp, Hu. cbn in Hp, Hu. injection Hu as Hu.
    cbn [fmap list_fmap scanLines]. rewrite assignField_url by done.
    destruct (assignedValue_inv _ Hvalue) as (_ & _ & Htrim).
    destruct (decide (path acc = "")) as [Hpath|Hpath].
    + rewrite (proj2 (hasAllFields_false _)) by (cbn; tauto).
      rewrite IH; cbn; try done.
      * unfold fill; cbn. rewrite (bool_decide_eq_true_2 _ Hurl).
        by rewrite (bool_decide_eq_false_2 _ Htrim).
      * apply hasAllFields_false; cbn; tauto.
      * rewrite (bool_decide_eq_false_2 _ Htrim). exact Hu.
    + rewrite (proj2 (hasAllFields_true _)) by (cbn; tauto).
      rewrite (bool_decide_eq_false_2 _ Hpath) in Hp.
      rewrite scanLines_neutral; [|done|by apply others_neutral].
      unfold fill; cbn. rewrite (bool_decide_eq_true_2 _ Hurl).
      by rewrite (bool_decide_eq_false_2 _ Hpath).
  - cbn in Hwf. apply andb_true_iff in Hwf as [Hline Hwf].
    cbn [fmap list_fmap scanLines renderLine].
    rewrite assignField_neutral, Hacc by done. by apply IH.
Qed.
End Scanner.

(** ** Well-formed manifests *)

Section Sections.

Implicit Types (sec : ManifestSection) (sections : list ManifestSection)
  (out : list Submodule) (lines preamble : list string).

Lemma completeSection_inv sec :
  completeSection sec = true →
  sectionName sec ≠ "" ∧ freeOf dquote (sectionName sec) = true ∧
  freeOf "010"%char (sectionName sec) = true ∧
  forallb wellFormedLine (sectionBody sec) = true ∧
  countIf isPath (sectionBody sec) = 1%nat ∧
  countIf isUrl (sectionBody sec) = 1%nat.
Proof.
  unfold completeSection. rewrite !andb_true_iff, negb_true_iff.
  rewrite String.eqb_neq, !Nat.eqb_eq. tauto.
Qed.

Lemma scanLines_section out sec :
  completeSection sec = true →
  scanLines out emptySubmodule (sectionLines sec) =
  (out ++ [recordOf sec], emptySubmodule).
Proof.
  intros (Hname & Hquote & _ & Hbody & Hp & Hu)%completeSection_inv.
  unfold sectionLines. cbn [scanLines]. rewrite assignField_header by done.
  rewrite (proj2 (hasAllFields_false _)) by (cbn; tauto).
  rewrite scanLines_body; [done|done| |done|exact Hp|exact Hu].
  apply hasAllFields_false; cbn; tauto.
Qed.

Lemma scanLines_sections out sections :
  Forall (λ sec, completeSection sec = true) sections →
  scanLines out emptySubmodule (concat (sectionLines <$> sections)) =
  (out ++ (recordOf <$> sections), emptySubmodule).
Proof.
  intros Hsections. revert out.
  induction Hsections as [|sec sections Hsec _ IH]; intros out.
  - by rewrite app_nil_r.
  - cbn [fmap list_fmap concat]. rewrite scanLines_app, scanLines_section by done.
    cbn [fst snd]. rewrite IH. by rewrite <- app_assoc.
Qed.

Lemma scanLines_manifest preamble sections :
  Forall (λ line, neutralLine line = true) preamble →
  Forall (λ sec, completeSection sec = true) sections →
  scanLines [] emptySubmodule (manifestLinesOf preamble sections) =
  (recordOf <$> sections, emptySubmodule).
Proof.
  intros Hpreamble Hsections. unfold manifestLinesOf.
  rewrite scanLines_app.
  rewrite (scanLines_neutral [] emptySubmodule preamble); [|reflexivity|done].
  by rewrite scanLines_sections.
Qed.

Lemma neutralLine_free line :
  neutralLine line = true → freeOf "010"%char line = true.
Proof. unfold neutralLine. by intros [_ ?]%andb_true_iff. Qed.

Lemma renderLine_free l :
  wellFormedLine l = true → freeOf "010"%char (renderLine l) = true.
Proof.
  destruct l as [indent value|indent value|text]; cbn [wellFormedLine renderLine].
  - intros [[_ Hindent]%indentation_inv (_ & Hvalue & _)%assignedValue_inv]%andb_true_iff.
    by rewrite !freeOf_app, Hindent, Hvalue.
  - intros [[_ Hindent]%indentation_inv (_ & Hvalue & _)%assignedValue_inv]%andb_true_iff.
    by rewrite !freeOf_app, Hindent, Hvalue.
  - apply neutralLine_free.
Qed.

Lemma sectionLines_free sec :
  completeSection sec = true →
  Forall (λ line, freeOf "010"%char line = true) (sectionLines sec).
Proof.
  intros (_ & _ & Hname & Hbody & _)%completeSection_inv.
  unfold sectionLines. constructor.
  - unfold sectionHeader. by rewrite !freeOf_app, Hname.
  - apply Forall_fmap, Forall_forall. intros l Hl. apply renderLine_free.
    rewrite forallb_forall in Hbody. by apply Hbody, list_elem_of_In.
Qed.

Lemma manifestLinesOf_free preamble sections :
  Forall (λ line, neutralLine line = true) preamble →
  Forall (λ sec, completeSection sec = true) sections →
  Forall (λ line, freeOf "010"%char line = true) (manifestLinesOf preamble sections).
Proof.
  intros Hpreamble Hsections. unfold manifestLinesOf. apply Forall_app. split.
  - eapply Forall_impl; [done|]. apply neutralLine_free.
  - induction Hsections as [|sec sections Hsec _ IH]; [constructor|].
    cbn [fmap list_fmap concat]. apply Forall_app. split; [|done].
    by apply sectionLines_free.
Qed.

(** Splitting the text of a manifest gives its lines back; the scan of a
    file without lines is the scan of one empty line. *)
Lemma scanManifest_join lines :
  Forall (λ line, freeOf "010"%char line = true) lines →
  scanManifest (join "010"%char lines) = (scanLines [] emptySubmodule lines).1.
Proof.
  intros Hlines. unfold scanManifest. destruct lines as [|line lines]; [done|].
  by rewrite split_join.
Qed.

Lemma scanManifest_wellFormed preamble sections :
  Forall (λ line, neutralLine line = true) preamble →
  Forall (λ sec, completeSection sec = true) sections →
  scanManifest (manifestText preamble sections) = recordOf <$> sections.
Proof.
  intros Hpreamble Hsections. unfold manifestText.
  rewrite scanManifest_join by by apply manifestLinesOf_free.
  by rewrite scanLines_manifest.
Qed.

End Sections.

(** ** Concurrent resolution and write-back *)

Section PromiseAll.

Context {A : Type}.
Implicit Types (vs : list A) (promises : list (Res A)) (order : list nat)
  (values : list (option A)).

Lemma omap_id_Some vs : omap id (Some <$> vs) = vs.
Proof. induction vs as [|v vs IH]; [done|]. cbn. by rewrite IH. Qed.

Lemma settle_fulfilled vs order values :
  length values = length vs →
  (∀ i v, values !! i = Some (Some v) → vs !! i = Some v) →
  ∃ values',
    settle (OK <$> vs) order values = OK values' ∧
    length values' = length vs ∧
    (∀ i v, values' !! i = Some (Some v) → vs !! i = Some v) ∧
    (∀ i, i ∈ order ∨ (∃ v, values !! i = Some (Some v)) →
          i < length vs → ∃ v, values' !! i = Some (Some v)).
Proof.
  revert values. induction order as [|i later IH]; intros values Hlen Hagree.
  { exists values. split_and!; try done. intros i [Hi|Hi] _; [|done].
    by apply elem_of_nil in Hi. }
  cbn [settle]. rewrite list_lookup_fmap.
  destruct (values !! i) as [[v|]|] eqn:Hslot.
  - destruct (IH values Hlen Hagree) as (values' & Hrun & Hlen' & Hagree' & Hfull).
    exists values'. split_and!; try done.
    intros j [[->|Hj]%elem_of_cons|Hj] Hlt; apply Hfull; eauto.
  - assert (is_Some (vs !! i)) as [v Hv].
    { apply lookup_lt_is_Some. rewrite <- Hlen. by eapply lookup_lt_Some. }
    rewrite Hv. cbn.
    destruct (IH (<[i := Some v]> values)) as (values' & Hrun & Hlen' & Hagree' & Hfull).
    { by rewrite length_insert. }
    { intros j w. destruct (decide (i = j)) as [->|Hne].
      - rewrite list_lookup_insert_eq by by eapply lookup_lt_Some. congruence.
      - rewrite list_lookup_insert_ne by done. apply Hagree. }
    exists values'. split_and!; try done.
    intros j Hj Hlt. apply Hfull; [|done].
    destruct (decide (i = j)) as [->|Hne].
    + right. exists v. apply list_lookup_insert_eq. by eapply lookup_lt_Some.
    + destruct Hj as [[->|Hj]%elem_of_cons|[w Hw]]; [done|by left|].
      right. exists w. by rewrite list_lookup_insert_ne.
  - destruct (IH values Hlen Hagree) as (values' & Hrun & Hlen' & Hagree' & Hfull).
    exists values'. split_and!; try done.
    intros j [[->|Hj]%elem_of_cons|Hj] Hlt; [|apply Hfull; eauto..].
    apply lookup_ge_None in Hslot. lia.
Qed.

(** When every promise fulfils, [Promise.all] fulfils with the values in the
    order of the promises, whatever the completion order. *)
Lemma Promise_all_fulfilled order vs : Promise_all order (OK <$> vs) = OK vs.
Proof.
  unfold Promise_all. rewrite length_fmap.
  destruct (settle_fulfilled vs (order ++ seq 0 (length vs))
              (replicate (length vs) None))
    as (values' & -> & Hlen & Hagree & Hfull).
  { by rewrite length_replicate. }
  { intros i v [[=] _]%lookup_replicate. }
  cbn. f_equal. replace values' with (Some <$> vs); [apply omap_id_Some|].
  apply list_eq. intros i. rewrite list_lookup_fmap.
  destruct (decide (i < length vs)) as [Hlt|Hge].
  - destruct (Hfull i) as [v Hv]; [|done|].
    + left. apply elem_of_app. right. apply elem_of_seq. lia.
    + rewrite Hv. by rewrite (Hagree _ _ Hv).
  - rewrite !(proj2 (lookup_ge_None _ _)); [done|lia..].
Qed.

Lemma settle_rejected promises order values :
  length values = length promises →
  (∀ i v, values !! i = Some (Some v) → promises !! i = Some (OK v)) →
  (∃ i e, i ∈ order ∧ promises !! i = Some (Throw e)) →
  ∃ j e', promises !! j = Some (Throw e') ∧
          settle promises order values = Throw e'.
Proof.
  revert values. induction order as [|i later IH];
    intros values Hlen Hagree (k & e & Hk & Hreject).
  { by apply elem_of_nil in Hk. }
  cbn [settle].
  destruct (values !! i) as [[v|]|] eqn:Hslot.
  - apply IH; [done..|]. exists k, e. split; [|done].
    apply elem_of_cons in Hk as [->|Hk]; [|done].
    apply Hagree in Hslot. congruence.
  - destruct (promises !! i) as [[v|e']|] eqn:Hpromise.
    + apply IH.
      * by rewrite length_insert.
      * intros j w. destruct (decide (i = j)) as [->|Hne].
        -- rewrite list_lookup_insert_eq by by eapply lookup_lt_Some. congruence.
        -- rewrite list_lookup_insert_ne by done. apply Hagree.
      * exists k, e. split; [|done].
        apply elem_of_cons in Hk as [->|Hk]; [congruence|done].
    + eauto.
    + apply lookup_ge_None in Hpromise. apply lookup_lt_Some in Hslot. lia.
  - assert (promises !! i = None) as Hnone.
    { apply lookup_ge_None. rewrite <- Hlen. by apply lookup_ge_None. }
    replace (match promises !! i with Some (OK _) | _ => settle promises later values end)
      with (settle promises later values) by by rewrite Hnone.
    apply IH; [done..|]. exists k, e. split; [|done].
    apply elem_of_cons in Hk as [->|Hk]; [congruence|done].
Qed.

(** When some promise rejects, [Promise.all] rejects with the exception of
    one of the rejected promises. *)
Lemma Promise_all_rejected order promises i e :
  promises !! i = Some (Throw e) →
  ∃ j e', promises !! j = Some (Throw e') ∧ Promise_all order promises = Throw e'.
Proof.
  intros Hreject. unfold Promise_all.
  destruct (settle_rejected promises (order ++ seq 0 (length promises))
              (replicate (length promises) None))
    as (j & e' & Hj & ->); [| | |by eauto].
  - by rewrite length_replicate.
  - intros k v [[=] _]%lookup_replicate.
  - exists i, e. split; [|done]. apply elem_of_app. right. apply elem_of_seq.
    apply lookup_lt_Some in Hreject. lia.
Qed.

Lemma promises_cases promises :
  (∃ vs, promises = OK <$> vs) ∨ (∃ i e, promises !! i = Some (Throw e)).
Proof.
  induction promises as [|[v|e] promises [[vs ->]|(i & e' & Hi)]].
  - left. by exists [].
  - left. by exists (v :: vs).
  - right. by exists (S i), e'.
  - right. by exists 0%nat, e.
  - right. by exists 0%nat, e.
Qed.

End PromiseAll.

Section WriteBack.

Lemma writeTags_zip tags :
  ∀ written pending : list Submodule,
    length pending = length tags →
    writeTags tags (length written) (written ++ pending) =
    OK (written ++ zip_with setTag pending tags).
Proof.
  induction tags as [|version tags IH]; intros written pending Hlen.
  - by destruct pending.
  - destruct pending as [|submodule pending]; [done|]. cbn [writeTags].
    rewrite list_lookup_middle by done.
    rewrite insert_app_r_alt, Nat.sub_diag by done. cbn [insert list_insert].
    rewrite (cons_middle _ written pending).
    rewrite app_assoc.
    replace (S (length written)) with (length (written ++ [setTag submodule version]))
      by (rewrite length_app; cbn; lia).
    rewrite IH by (cbn in Hlen; lia).
    by rewrite <- app_assoc.
Qed.

End WriteBack.

(** ** Trimmed values, and the result of the parser *)

Section Trim.

Implicit Types (s : string) (c : ascii).

Lemma trimStart_cases s :
  trimStart s = "" ∨ ∃ c rest, trimStart s = String c rest ∧ isWhiteSpace c = false.
Proof.
  induction s as [|c s IH]; [by left|]. cbn.
  destruct (isWhiteSpace c) eqn:Hc; [done|]. right. eauto.
Qed.

Lemma trimEnd_idemp s : trimEnd (trimEnd s) = trimEnd s.
Proof.
  induction s as [|c s IH]; [done|]. cbn [trimEnd].
  destruct (trimEnd s) as [|d kept] eqn:Hkept.
  - destruct (isWhiteSpace c) eqn:Hc; [done|]. cbn. by rewrite Hc.
  - cbn [trimEnd] in IH |- *. by rewrite IH.
Qed.

Lemma trimEnd_head c s :
  isWhiteSpace c = false → ∃ kept, trimEnd (String c s) = String c kept.
Proof.
  intros Hc. cbn [trimEnd]. rewrite Hc. destruct (trimEnd s); eauto.
Qed.

(** A trimmed value has no white space left around it. *)
Lemma trim_idemp s : trim (trim s) = trim s.
Proof.
  unfold trim. destruct (trimStart_cases s) as [->|(c & rest & -> & Hc)]; [done|].
  destruct (trimEnd_head c rest Hc) as [kept Hkept].
  rewrite Hkept at 1. cbn [trimStart]. rewrite Hc, <- Hkept.
  apply trimEnd_idemp.
Qed.

Lemma first_split c s :
  ∃ rest, s = first (split c s) +:+ rest ∧
          freeOf c (first (split c s)) = true ∧
          (rest = "" ∨ ∃ rest', rest = String c rest').
Proof.
  induction s as [|d s (rest & Hs & Hfree & Hrest)].
  - exists "". by split_and!; [..|left].
  - cbn [split]. destruct (Ascii.eqb d c) eqn:Hd.
    + apply Ascii.eqb_eq in Hd as ->. exists (String c s). split_and!; eauto.
    + pose proof (split_nonempty c s) as Hne.
      unfold first in *. destruct (split c s) as [|piece pieces]; [done|].
      cbn in Hs, Hfree |- *. exists rest. rewrite Hd, Hfree. split_and!; try done.
      by rewrite Hs at 1.
Qed.

End Trim.

Section Parse.

Implicit Types (env : Env) (order : list nat) (manifest manifestFile : string)
  (records : list Submodule) (tags : list string).

Lemma writeTags_all tags (submodules : list Submodule) :
  length submodules = length tags →
  writeTags tags 0 submodules = OK (zip_with setTag submodules tags).
Proof. apply (writeTags_zip tags []). Qed.

(** The promises [parseSubmoduleManifest] hands to [Promise.all]. *)
Lemma Forall2_resolved env (submodules : list Submodule) tags :
  Forall2 (λ submodule version,
             processSubmoduleTag env (path submodule) = OK version)
          submodules tags →
  (λ submodule, processSubmoduleTag env (path submodule)) <$> submodules =
  OK <$> tags.
Proof. induction 1 as [|s v ss vs Hs _ IH]; [done|]. cbn. by rewrite Hs, IH. Qed.

Lemma resolved_Forall2 env (submodules : list Submodule) tags :
  (λ submodule, processSubmoduleTag env (path submodule)) <$> submodules =
  OK <$> tags →
  Forall2 (λ submodule version,
             processSubmoduleTag env (path submodule) = OK version)
          submodules tags.
Proof.
  revert tags. induction submodules as [|s ss IH]; intros [|v vs]; cbn; try done.
  intros [= Hs Hss]. constructor; auto.
Qed.

Lemma Promise_all_inv {A} order (promises : list (Res A)) :
  match Promise_all order promises with
  | OK vs => promises = OK <$> vs
  | Throw e => ∃ i, promises !! i = Some (Throw e)
  end.
Proof.
  destruct (promises_cases promises) as [[vs ->]|(i & e & Hi)].
  - by rewrite Promise_all_fulfilled.
  - destruct (Promise_all_rejected order promises i e Hi) as (j & e' & Hj & ->).
    eauto.
Qed.

Lemma parseSubmoduleManifest_resolved env order manifest manifestFile tags :
  path_basename env (path_normalize env manifest) = ".gitmodules" →
  fs_existsSync env (path_normalize env manifest) = true →
  fs_readFileSync env (path_normalize env manifest) = Returned manifestFile →
  Forall2 (λ submodule version,
             processSubmoduleTag env (path submodule) = OK version)
          (scanManifest manifestFile) tags →
  parseSubmoduleManifest env order manifest =
  OK (zip_with setTag (scanManifest manifestFile) tags).
Proof.
  intros Hbase Hexists Hread Htags. unfold parseSubmoduleManifest.
  rewrite Hbase, Hexists, Hread. cbn.
  rewrite (Forall2_resolved _ _ _ Htags), Promise_all_fulfilled. cbn.
  apply writeTags_all. by eapply Forall2_length.
Qed.

Lemma parseSubmoduleManifest_inv env order manifest records :
  parseSubmoduleManifest env order manifest = OK records →
  ∃ manifestFile tags,
    path_basename env (path_normalize env manifest) = ".gitmodules" ∧
    fs_existsSync env (path_normalize env manifest) = true ∧
    fs_readFileSync env (path_normalize env manifest) = Returned manifestFile ∧
    Forall2 (λ submodule version,
               processSubmoduleTag env (path submodule) = OK version)
            (scanManifest manifestFile) tags ∧
    records = zip_with setTag (scanManifest manifestFile) tags.
Proof.
  unfold parseSubmoduleManifest. intros Hparse.
  destruct (decide (path_basename env (path_normalize env manifest) = ".gitmodules"))
    as [Hbase|Hbase]; [|by rewrite (bool_decide_eq_true_2 _ Hbase) in Hparse].
  rewrite bool_decide_eq_false_2 in Hparse by by intros [].
  destruct (fs_existsSync env (path_normalize env manifest)) eqn:Hexists; [|done].
  destruct (fs_readFileSync env (path_normalize env manifest))
    as [manifestFile|message] eqn:Hread; [|done].
  cbn in Hparse.
  pose proof (Promise_all_inv order
    ((λ submodule, processSubmoduleTag env (path submodule)) <$>
       scanManifest manifestFile)) as Hall.
  destruct (Promise_all _ _) as [tags|e]; [|done]. cbn in Hparse.
  apply resolved_Forall2 in Hall.
  rewrite writeTags_all in Hparse by by eapply Forall2_length.
  injection Hparse as <-. by exists manifestFile, tags.
Qed.

End Parse.

(** ** Exceptions of each stage, and the coordinate cache *)

Section Errors.

Implicit Types (env : Env) (order : list nat) (e : Error).

Lemma exec_getExecOutput_default env commandLine args directory :
  exec_getExecOutput env commandLine args
    {| cwd := directory; ignoreReturnCode := false |} =
  match exec_process env commandLine args directory with
  | Failed message => Throw (External message)
  | Returned output =>
      if bool_decide (exitCode output ≠ 0%Z)
      then Throw (External (exitMessage commandLine output))
      else OK output
  end.
Proof.
  unfold exec_getExecOutput. cbn [cwd ignoreReturnCode negb].
  destruct (exec_process env commandLine args directory); [|done].
  by rewrite andb_true_r.
Qed.

(** What [processSubmoduleTag] comes to: the output of the tag command when
    it ends with the status 0, the exception of [exec.getExecOutput]
    otherwise. *)
Lemma processSubmoduleTag_cases env modulePath :
  processSubmoduleTag env modulePath =
  match exec_process env "git" ["describe"; "--tags"]
          (path_normalize env modulePath) with
  | Failed message => Throw (External message)
  | Returned described =>
      if bool_decide (exitCode described ≠ 0%Z)
      then Throw (External (exitMessage "git" described))
      else OK (stdout described)
  end.
Proof.
  unfold processSubmoduleTag. rewrite !exec_getExecOutput_default.
  destruct (exec_process env "git" ["describe"; "--tags"] _)
    as [described|message]; [|done].
  destruct (decide (exitCode described = 0%Z)) as [Hzero|Hexit].
  - rewrite !bool_decide_eq_false_2 by (by intros []). cbn [andThen].
    by rewrite bool_decide_eq_false_2 by (by intros []).
  - by rewrite !(bool_decide_eq_true_2 _ Hexit).
Qed.

Lemma processSubmoduleTag_throw env modulePath e :
  processSubmoduleTag env modulePath = Throw e →
  e = VersionResolutionFailed ∨ ∃ message, e = External message.
Proof.
  rewrite processSubmoduleTag_cases.
  destruct (exec_process env "git" ["describe"; "--tags"] _)
    as [described|message]; [|intros [= <-]; eauto].
  case_bool_decide; [|done]. intros [= <-]. eauto.
Qed.

Lemma writeTags_throw tags index (submodules : list Submodule) e :
  writeTags tags index submodules = Throw e → e = TypeError.
Proof.
  revert index submodules. induction tags as [|version tags IH];
    intros index submodules; cbn; [done|].
  destruct (submodules !! index); [apply IH|by intros [= <-]].
Qed.

Lemma parseSubmoduleManifest_throw env order manifest e :
  parseSubmoduleManifest env order manifest = Throw e →
  (e = ManifestNotFound (path_normalize env manifest) ∧
   (path_basename env (path_normalize env manifest) ≠ ".gitmodules" ∨
    fs_existsSync env (path_normalize env manifest) = false)) ∨
  (path_basename env (path_normalize env manifest) = ".gitmodules" ∧
   fs_existsSync env (path_normalize env manifest) = true ∧
   (e = VersionResolutionFailed ∨ (∃ message, e = External message) ∨
    e = TypeError)).
Proof.
  unfold parseSubmoduleManifest. intros Hparse.
  destruct (decide (path_basename env (path_normalize env manifest) = ".gitmodules"))
    as [Hbase|Hbase].
  - rewrite bool_decide_eq_false_2 in Hparse by by intros [].
    destruct (fs_existsSync env (path_normalize env manifest)) eqn:Hexists;
      cbn in Hparse; [|injection Hparse as <-; left; eauto].
    right. split_and!; [done..|].
    destruct (fs_readFileSync env (path_normalize env manifest))
      as [manifestFile|message]; cbn in Hparse;
      [|injection Hparse as <-; eauto].
    pose proof (Promise_all_inv order
      ((λ submodule, processSubmoduleTag env (path submodule)) <$>
         scanManifest manifestFile)) as Hall.
    destruct (Promise_all _ _) as [tags|e']; cbn in Hparse.
    + apply writeTags_throw in Hparse. eauto.
    + injection Hparse as ->. destruct Hall as [i Hi].
      apply list_lookup_fmap_Some in Hi as (submodule & Hi & _).
      symmetry in Hi. apply processSubmoduleTag_throw in Hi. tauto.
  - rewrite (bool_decide_eq_true_2 _ Hbase) in Hparse. cbn in Hparse.
    injection Hparse as <-. left. eauto.
Qed.

Lemma new_PackageURL_throw type namespace nm version e :
  new_PackageURL type namespace nm version = Throw e → e = InvalidPurl.
Proof. unfold new_PackageURL. case_bool_decide; by intros [= <-]. Qed.

Lemma processSubmodule_throw submodule e :
  processSubmodule submodule = Throw e →
  e = IncompleteSubmodule ∨ e = TypeError ∨ e = InvalidPurl ∨
  ∃ type, e = UnsupportedHost type.
Proof.
  unfold processSubmodule. case_bool_decide; [intros [= <-]; eauto|].
  destruct (split "/" (url submodule) !! 4%nat); [|intros [= <-]; eauto].
  destruct (split "/" (url submodule) !! 2%nat) as [host|];
    [|intros [= <-]; eauto].
  case_bool_decide; [|intros [= <-]; eauto].
  intros ->%new_PackageURL_throw. eauto.
Qed.

End Errors.

Section Coordinates.

Implicit Types (submodules : list Submodule) (purls derived : list PackageURL)
  (cache : gmap PackageURL Package).

Lemma processSubmoduleUrls_from_cases purls submodules :
  (∃ derived,
     Forall2 (λ submodule purl, processSubmodule submodule = OK purl)
             submodules derived ∧
     processSubmoduleUrls_from purls submodules = OK (purls ++ derived)) ∨
  (∃ submodule e,
     submodule ∈ submodules ∧ processSubmodule submodule = Throw e ∧
     processSubmoduleUrls_from purls submodules = Throw e).
Proof.
  revert purls. induction submodules as [|submodule submodules IH]; intros purls.
  - left. exists []. by rewrite app_nil_r.
  - cbn [processSubmoduleUrls_from].
    destruct (processSubmodule submodule) as [purl|e] eqn:Hpurl; cbn.
    + destruct (IH (purls ++ [purl])) as [(derived & Hall & ->)|(s & e & Hs & He & ->)].
      * left. exists (purl :: derived). split; [by constructor|].
        by rewrite <- app_assoc.
      * right. exists s, e. split_and!; [by right|done..].
    + right. exists submodule, e. split_and!; [by left|done..].
Qed.

Lemma processSubmoduleCache_from_derived cache submodules derived :
  Forall2 (λ submodule purl, processSubmodule submodule = OK purl)
          submodules derived →
  processSubmoduleCache_from cache submodules =
  OK (foldl PackageCache_package cache derived).
Proof.
  intros Hall. revert cache.
  induction Hall as [|submodule purl submodules derived Hpurl _ IH];
    intros cache; [done|].
  cbn [processSubmoduleCache_from]. rewrite Hpurl. cbn. apply IH.
Qed.

Lemma processSubmoduleCache_from_throw cache submodules e :
  processSubmoduleCache_from cache submodules = Throw e →
  ∃ submodule, submodule ∈ submodules ∧ processSubmodule submodule = Throw e.
Proof.
  revert cache. induction submodules as [|submodule submodules IH];
    intros cache; cbn [processSubmoduleCache_from]; [done|].
  destruct (processSubmodule submodule) as [purl|e'] eqn:Hpurl; cbn.
  - intros (s & Hs & He)%IH. exists s. split; [by right|done].
  - intros [= ->]. exists submodule. split; [by left|done].
Qed.

(** What the cache holds after the packages of [derived] are added. *)
Lemma lookup_packages cache derived purl :
  foldl PackageCache_package cache derived !! purl =
  if decide (purl ∈ derived) then Some (new_Package purl) else cache !! purl.
Proof.
  revert cache. induction derived as [|added derived IH]; intros cache.
  - cbn. by rewrite decide_False by apply not_elem_of_nil.
  - cbn [foldl]. rewrite IH. unfold PackageCache_package.
    destruct (decide (purl ∈ derived)) as [Hin|Hout].
    + by rewrite decide_True by by right.
    + destruct (decide (added = purl)) as [->|Hne].
      * rewrite lookup_insert_eq. by rewrite decide_True by by left.
      * rewrite lookup_insert_ne by done.
        rewrite decide_False; [done|]. by intros [->|?]%elem_of_cons.
Qed.

End Coordinates.

(** ** Incomplete sections *)

Section Emitted.

Implicit Types (acc : Submodule) (out : list Submodule) (lines : list string).

Lemma assignField_tag acc line : tag (assignField acc line) = tag acc.
Proof.
  unfold assignField.
  repeat match goal with |- context [if ?b then _ else _] => destruct b end; done.
Qed.

Lemma assignField_keeps_path acc line :
  path acc = "" → includes line pathMarker = false →
  path (assignField acc line) = "".
Proof.
  intros Hpath Hline. unfold assignField. rewrite Hline, andb_false_r.
  repeat match goal with |- context [if ?b then _ else _] => destruct b end; done.
Qed.

Lemma assignField_keeps_url acc line :
  url acc = "" → includes line urlMarker = false →
  url (assignField acc line) = "".
Proof.
  intros Hurl Hline. unfold assignField. rewrite Hline, andb_false_r.
  repeat match goal with |- context [if ?b then _ else _] => destruct b end; done.
Qed.

(** Every record the loop pushes has its three base fields set, and no
    version yet. *)
Lemma scanLines_emitted out acc lines :
  Forall (λ r, hasAllFields r = true ∧ tag r = "") out → tag acc = "" →
  Forall (λ r, hasAllFields r = true ∧ tag r = "") (scanLines out acc lines).1.
Proof.
  revert out acc. induction lines as [|line lines IH]; intros out acc Hout Hacc;
    [done|].
  cbn [scanLines]. destruct (hasAllFields (assignField acc line)) eqn:Hall.
  - apply IH; [|done]. apply Forall_app. split; [done|].
    apply Forall_singleton. by rewrite assignField_tag.
  - apply IH; [done|]. by rewrite assignField_tag.
Qed.

(** A record under construction that lacks a path is never pushed while no
    line assigns one; likewise for the url. *)
Lemma scanLines_no_path out acc lines :
  path acc = "" → Forall (λ line, includes line pathMarker = false) lines →
  (scanLines out acc lines).1 = out.
Proof.
  intros Hpath Hlines. revert acc Hpath.
  induction Hlines as [|line lines Hline _ IH]; intros acc Hpath; [done|].
  cbn [scanLines].
  pose proof (assignField_keeps_path acc line Hpath Hline) as Hkept.
  rewrite (proj2 (hasAllFields_false _)) by tauto. by apply IH.
Qed.

Lemma scanLines_no_url out acc lines :
  url acc = "" → Forall (λ line, includes line urlMarker = false) lines →
  (scanLines out acc lines).1 = out.
Proof.
  intros Hurl Hlines. revert acc Hurl.
  induction Hlines as [|line lines Hline _ IH]; intros acc Hurl; [done|].
  cbn [scanLines].
  pose proof (assignField_keeps_url acc line Hurl Hline) as Hkept.
  rewrite (proj2 (hasAllFields_false _)) by tauto. by apply IH.
Qed.

Lemma untag_zip (submodules : list Submodule) (tags : list string) :
  length submodules = length tags →
  Forall (λ r, tag r = "") submodules →
  (λ r, setTag r "") <$> zip_with setTag submodules tags = submodules.
Proof.
  intros Hlen Htags. revert tags Hlen.
  induction Htags as [|[nm p u t] submodules Ht _ IH]; intros [|version tags] Hlen;
    try done.
  cbn in Ht, Hlen |- *. subst t. rewrite IH by lia. done.
Qed.

End Emitted.

(** C2 (as amended): the parser never emits a record whose name, path or url
    is empty; and a section that has a name but lacks a path assignment is
    dropped from the output when, at its header, the record under
    construction holds no path left over from earlier lines and no line from
    its header to the end of the manifest contains the path marker; likewise
    for the url.  The records are then those of the lines before its
    header. *)
Theorem incomplete_tail_dropped env order manifest records :
  parseSubmoduleManifest env order manifest = OK records →
  Forall (λ r, name r ≠ "" ∧ path r ≠ "" ∧ url r ≠ "") records ∧
  ∀ before nm body,
    fs_readFileSync env (path_normalize env manifest) =
      Returned (join "010"%char (before ++ sectionHeader nm :: body)) →
    Forall (λ line, freeOf "010"%char line = true)
           (before ++ sectionHeader nm :: body) →
    (path (scanLines [] emptySubmodule before).2 = "" ∧
     Forall (λ line, includes line pathMarker = false) (sectionHeader nm :: body)) ∨
    (url (scanLines [] emptySubmodule before).2 = "" ∧
     Forall (λ line, includes line urlMarker = false) (sectionHeader nm :: body)) →
    (λ r, setTag r "") <$> records = (scanLines [] emptySubmodule before).1.
Proof.
  intros (manifestFile & tags & _ & _ & Hread & Htags & ->)%parseSubmoduleManifest_inv.
  pose proof (scanLines_emitted [] emptySubmodule (split "010"%char manifestFile)
                (Forall_nil_2 _) eq_refl) as Hemitted.
  fold (scanManifest manifestFile) in Hemitted. split.
  - apply Forall_forall. intros r (i & Hr)%list_elem_of_lookup_1.
    apply lookup_zip_with_Some in Hr as (s & version & -> & Hs & _).
    rewrite Forall_forall in Hemitted.
    destruct (Hemitted s) as [Hall _]; [by eapply list_elem_of_lookup_2|].
    by apply hasAllFields_true in Hall.
  - intros before nm body Hfile Hfree Hmissing.
    rewrite Hread in Hfile. injection Hfile as ->.
    rewrite untag_zip.
    + rewrite scanManifest_join by done. rewrite scanLines_app.
      destruct (scanLines [] emptySubmodule before) as [out acc].
      cbn [fst snd] in Hmissing |- *.
      destruct Hmissing as [[Hpath Hlines]|[Hurl Hlines]];
        [by apply scanLines_no_path|by apply scanLines_no_url].
    + by eapply Forall2_length.
    + eapply Forall_impl; [exact Hemitted|]. by intros r [_ ?].
Qed.

(** C2, counterexample: in [mixedManifest] the section dep-a has a name and
    a path but no url assignment, and the section dep-b after it is complete.
    The parser does not drop dep-a: it emits one record, named dep-a, with
    the url of dep-b, and no record for dep-b. *)
Lemma incomplete_section_not_dropped :
  Forall (λ line, includes line urlMarker = false)
         [sectionHeader "dep-a"; pathLine "libs/dep-a"] ∧
  parseSubmoduleManifest (exampleEnv mixedManifest "") [] ".gitmodules" =
  OK [ {| name := "dep-a"; path := "libs/dep-a";
          url := "https://github.com/org/dep-b.git"; tag := "v1.2.3" |} ].
Proof. split; [by repeat constructor|]. vm_compute. reflexivity. Qed.

Lemma incomplete_tail_dropped_witness :
  parseSubmoduleManifest (exampleEnv tailManifest "") [] ".gitmodules" =
    OK [recordA] ∧
  Forall (λ r, name r ≠ "" ∧ path r ≠ "" ∧ url r ≠ "") [recordA] ∧
  (λ r, setTag r "") <$> [recordA] =
  (scanLines [] emptySubmodule
     [sectionHeader "dep-a"; pathLine "libs/dep-a";
      urlLine "https://github.com/org/dep-a.git"]).1.
Proof.
  assert (parseSubmoduleManifest (exampleEnv tailManifest "") [] ".gitmodules" =
          OK [recordA]) as Hparse by (vm_compute; reflexivity).
  destruct (incomplete_tail_dropped _ _ _ _ Hparse) as [Hfields Htail].
  split_and!; [exact Hparse|exact Hfields|].
  apply (Htail _ "dep-b" [pathLine "libs/dep-b"; ""]).
  - vm_compute. reflexivity.
  - repeat constructor.
  - right. split; [vm_compute; reflexivity|repeat constructor].
Defined.

(** C3: for every well-formed manifest of N complete sections (a quoted
    name, one path assignment and one url assignment each, among any other
    lines), whose versions all resolve, the parser returns exactly N
    records, in file order; each has the name of its section and the
    assigned path and url trimmed of the white space around them, and none of
    the three is empty. *)
Theorem complete_sections_parsed env order manifest preamble sections versions :
  path_basename env (path_normalize env manifest) = ".gitmodules" →
  fs_existsSync env (path_normalize env manifest) = true →
  fs_readFileSync env (path_normalize env manifest) =
    Returned (manifestText preamble sections) →
  Forall (λ line, neutralLine line = true) preamble →
  Forall (λ sec, completeSection sec = true) sections →
  Forall2 (λ sec version,
             processSubmoduleTag env (trim (pathValue (sectionBody sec))) =
             OK version) sections versions →
  ∃ records,
    parseSubmoduleManifest env order manifest = OK records ∧
    length records = length sections ∧
    (∀ i sec, sections !! i = Some sec →
       ∃ r, records !! i = Some r ∧
            name r = sectionName sec ∧
            path r = trim (pathValue (sectionBody sec)) ∧
            url r = trim (urlValue (sectionBody sec))) ∧
    Forall (λ r, name r ≠ "" ∧ path r ≠ "" ∧ url r ≠ "" ∧
                 trim (path r) = path r ∧ trim (url r) = url r) records.
Proof.
  intros Hbase Hexists Hread Hpreamble Hsections Hversions.
  assert (Forall2 (λ submodule version,
                     processSubmoduleTag env (path submodule) = OK version)
                  (scanManifest (manifestText preamble sections)) versions)
    as Htags.
  { rewrite scanManifest_wellFormed by done. by apply Forall2_fmap_l. }
  exists (zip_with setTag (scanManifest (manifestText preamble sections)) versions).
  split; [by apply parseSubmoduleManifest_resolved|].
  rewrite scanManifest_wellFormed by done.
  pose proof (Forall2_length _ _ _ Hversions) as Hlen.
  split_and!.
  - rewrite length_zip_with, length_fmap. lia.
  - intros i sec Hsec.
    destruct (lookup_lt_is_Some_2 versions i) as [version Hversion].
    { rewrite <- Hlen. by eapply lookup_lt_Some. }
    exists (setTag (recordOf sec) version). split; [|done].
    apply lookup_zip_with_Some. exists (recordOf sec), version.
    by rewrite list_lookup_fmap, Hsec.
  - apply Forall_forall. intros r (i & Hr)%list_elem_of_lookup_1.
    apply lookup_zip_with_Some in Hr as (s & version & -> & Hs & _).
    apply list_lookup_fmap_Some in Hs as (sec & -> & Hsec).
    rewrite Forall_forall in Hsections.
    assert (completeSection sec = true) as Hcomplete
      by by eapply Hsections, list_elem_of_lookup_2.
    pose proof (scanLines_section [] sec Hcomplete) as Hscan.
    pose proof (scanLines_emitted [] emptySubmodule (sectionLines sec)
                  (Forall_nil_2 _) eq_refl) as Hemitted.
    rewrite Hscan in Hemitted. apply Forall_singleton in Hemitted as [Hall _].
    apply hasAllFields_true in Hall. unfold setTag, recordOf in *.
    cbn [name path url] in *. rewrite !trim_idemp. tauto.
Qed.

Lemma complete_sections_parsed_witness :
  parseSubmoduleManifest (exampleEnv (manifestText [] exampleSections) "")
    [1; 0]%nat ".gitmodules" = OK [recordA; recordB] ∧
  ∃ records,
    parseSubmoduleManifest (exampleEnv (manifestText [] exampleSections) "")
      [1; 0]%nat ".gitmodules" = OK records ∧
    length records = 2%nat ∧
    Forall (λ r, name r ≠ "" ∧ path r ≠ "" ∧ url r ≠ "" ∧
                 trim (path r) = path r ∧ trim (url r) = url r) records.
Proof.
  split; [vm_compute; reflexivity|].
  destruct (complete_sections_parsed
              (exampleEnv (manifestText [] exampleSections) "")
              [1; 0]%nat ".gitmodules" [] exampleSections ["v1.2.3"; "v0.9.0"])
    as (records & Hparse & Hlen & _ & Hfields).
  - vm_compute. reflexivity.
  - vm_compute. reflexivity.
  - vm_compute. reflexivity.
  - constructor.
  - repeat constructor.
  - repeat constructor.
  - exists records. split_and!; [exact Hparse|exact Hlen|exact Hfields].
Defined.

(** ** Coordinates *)

Lemma isComplete_guard submodule :
  isComplete submodule →
  bool_decide (name submodule = "" ∨ path submodule = "" ∨
               url submodule = "" ∨ tag submodule = "") = false.
Proof. intros (? & ? & ? & ?). apply bool_decide_eq_false_2. tauto. Qed.

(** C5, counterexample: the record is complete and the segment at index 2
    of its url, the hosting domain, is gitlab.com, not github.com; the url
    has four segments only, and [processSubmodule] fails with a TypeError
    where it computes the repository name, not with UnsupportedHost. *)
Lemma short_url_not_unsupported :
  isComplete {| name := "dep-a"; path := "libs/dep-a";
                url := "https://gitlab.com/org"; tag := "v1.2.3" |} ∧
  split "/"%char "https://gitlab.com/org" !! 2%nat = Some "gitlab.com" ∧
  processSubmodule {| name := "dep-a"; path := "libs/dep-a";
                      url := "https://gitlab.com/org"; tag := "v1.2.3" |} =
  Throw TypeError.
Proof. split_and!; [by repeat split|reflexivity|reflexivity]. Qed.

(** C5 (as amended): for a complete record whose url has at least five
    segments between slashes, the segment at index 2 is the hosting domain,
    the one at index 3 the namespace, and the one at index 4 the repository,
    whose name is what stands before its first dot.  A domain other than
    github.com fails with UnsupportedHost; for github.com, a namespace and a
    name that are not empty give the coordinate with the type github (the
    domain up to its first dot), that namespace, that name and the version of
    the record. *)
Theorem processSubmodule_coordinate submodule scheme authority host namespace
    repository rest :
  isComplete submodule →
  split "/"%char (url submodule) =
    scheme :: authority :: host :: namespace :: repository :: rest →
  (∃ extension,
     repository = first (split "."%char repository) +:+ extension ∧
     freeOf "."%char (first (split "."%char repository)) = true ∧
     (extension = "" ∨ ∃ rest', extension = String "."%char rest')) ∧
  (host ≠ "github.com" →
   processSubmodule submodule = Throw (UnsupportedHost (Some host))) ∧
  (host = "github.com" → namespace ≠ "" →
   first (split "."%char repository) ≠ "" →
   processSubmodule submodule =
   OK {| purl_type := "github"; purl_namespace := Some namespace;
         purl_name := first (split "."%char repository);
         purl_version := tag submodule |}).
Proof.
  intros Hcomplete Hsplit. split; [apply first_split|].
  unfold processSubmodule. rewrite (isComplete_guard _ Hcomplete), Hsplit. cbn.
  split.
  - intros Hhost. by rewrite bool_decide_eq_false_2 by done.
  - intros -> Hnamespace Hname. rewrite bool_decide_eq_true_2 by done.
    unfold new_PackageURL. destruct Hcomplete as (_ & _ & _ & Htag).
    rewrite bool_decide_eq_false_2; [done|].
    intros [|[|[[=]|[|]]]]; done.
Qed.

Lemma processSubmodule_coordinate_witness :
  processSubmodule recordA =
    OK {| purl_type := "github"; purl_namespace := Some "org";
          purl_name := "dep-a"; purl_version := "v1.2.3" |} ∧
  processSubmodule
    {| name := "dep-a"; path := "libs/dep-a";
       url := "https://gitlab.com/org/dep-a.git"; tag := "v1.2.3" |} =
    Throw (UnsupportedHost (Some "gitlab.com")).
Proof.
  split.
  - apply (processSubmodule_coordinate recordA "https:" "" "github.com" "org"
             "dep-a.git" []); [by repeat split|reflexivity|reflexivity|done|done].
  - apply (processSubmodule_coordinate _ "https:" "" "gitlab.com" "org"
             "dep-a.git" []); [by repeat split|reflexivity|done].
Defined.

(** C9: a complete record whose url has fewer than five segments between
    slashes makes [processSubmodule] fail with a TypeError, raised where the
    repository name is computed: neither a coordinate, nor IncompleteSubmodule,
    nor UnsupportedHost, whatever the hosting domain is. *)
Theorem processSubmodule_short_url submodule :
  isComplete submodule →
  length (split "/"%char (url submodule)) < 5 →
  processSubmodule submodule = Throw TypeError.
Proof.
  intros Hcomplete Hshort. unfold processSubmodule.
  rewrite (isComplete_guard _ Hcomplete).
  by rewrite (proj2 (lookup_ge_None _ _)) by lia.
Qed.

Lemma processSubmodule_short_url_witness :
  processSubmodule
    {| name := "dep-a"; path := "libs/dep-a"; url := "https://github.com/org";
       tag := "v1.2.3" |} = Throw TypeError ∧
  processSubmodule
    {| name := "dep-a"; path := "libs/dep-a"; url := "git@gitlab.com:org/dep-a.git";
       tag := "v1.2.3" |} = Throw TypeError.
Proof.
  split; apply processSubmodule_short_url;
    [by repeat split|vm_compute; lia|by repeat split|vm_compute; lia].
Defined.

(** ** The coordinate cache and the dependency listing *)

Section Listing.

Implicit Types (env : Env) (order : list nat) (purls : list PackageURL)
  (cache : gmap PackageURL Package) (manifest : Manifest).

Lemma addPurls_resolved cache developmentDeps purls manifest :
  (∀ purl, purl ∈ purls → cache !! purl = Some (new_Package purl)) →
  ∃ listing,
    addPurls cache developmentDeps manifest purls = OK listing ∧
    ∀ purl, resolved listing !! purl =
            if decide (purl ∈ purls) then Some (entryOf developmentDeps purl)
            else resolved manifest !! purl.
Proof.
  revert manifest. induction purls as [|added purls IH]; intros manifest Hcache.
  - exists manifest. split; [done|]. intros purl.
    by rewrite decide_False by apply not_elem_of_nil.
  - cbn [addPurls]. unfold addPurl, PackageCache_lookupPackage.
    rewrite Hcache by by left. cbn [andThen].
    destruct (IH (Manifest_addDirectDependency manifest (new_Package added)
                    (scopeOf developmentDeps (new_Package added))))
      as (listing & -> & Hlisting).
    { intros purl Hpurl. apply Hcache. by right. }
    exists listing. split; [done|]. intros purl. rewrite Hlisting.
    destruct (decide (purl ∈ purls)) as [Hin|Hout].
    + by rewrite decide_True by by right.
    + cbn [resolved Manifest_addDirectDependency packageURL new_Package].
      destruct (decide (added = purl)) as [->|Hne].
      * rewrite lookup_insert_eq. by rewrite decide_True by by left.
      * rewrite lookup_insert_ne by done.
        rewrite decide_False; [done|]. by intros [->|?]%elem_of_cons.
Qed.

Lemma addPurls_throw cache developmentDeps purls manifest e :
  addPurls cache developmentDeps manifest purls = Throw e →
  e = AssertionFailed ∧ ∃ purl, purl ∈ purls ∧ cache !! purl = None.
Proof.
  revert manifest. induction purls as [|added purls IH]; intros manifest;
    cbn [addPurls]; [done|].
  unfold addPurl, PackageCache_lookupPackage.
  destruct (cache !! added) eqn:Hadded; cbn [andThen].
  - intros [-> (purl & Hpurl & Hnone)]%IH. split; [done|].
    exists purl. split; [by right|done].
  - intros [= <-]. split; [done|]. exists added. split; [by left|done].
Qed.

(** The stages of [main], when it hands a snapshot over. *)
Lemma main_inv env order snapshot :
  main env order = OK snapshot →
  ∃ submoduleList purls listing,
    parseSubmoduleManifest env order (core_getInput env "manifest") =
      OK submoduleList ∧
    Forall2 (λ submodule purl, processSubmodule submodule = OK purl)
            submoduleList purls ∧
    manifests snapshot = [listing] ∧
    ∀ purl, resolved listing !! purl =
            if decide (purl ∈ purls)
            then Some (entryOf (core_getInput env "development-deps") purl)
            else None.
Proof.
  unfold main. intros Hmain.
  destruct (parseSubmoduleManifest env order (core_getInput env "manifest"))
    as [submoduleList|e]; [|done]. cbn [andThen] in Hmain.
  unfold processSubmoduleUrls, processSubmoduleCache in Hmain.
  destruct (processSubmoduleUrls_from_cases [] submoduleList)
    as [(purls & Hpurls & Hurls)|(s & e & _ & _ & Hurls)];
    rewrite Hurls in Hmain; [|done].
  rewrite (processSubmoduleCache_from_derived _ _ _ Hpurls) in Hmain.
  cbn [andThen app] in Hmain.
  destruct (addPurls_resolved (foldl PackageCache_package ∅ purls)
              (core_getInput env "development-deps") purls
              (new_Manifest (path_basename env (core_getInput env "manifest"))
                            (core_getInput env "manifest")))
    as (listing & Hadd & Hlisting).
  { intros purl Hpurl. rewrite lookup_packages. by rewrite decide_True. }
  rewrite Hadd in Hmain. cbn [andThen] in Hmain. injection Hmain as <-.
  exists submoduleList, purls, listing. split_and!; [done..|].
  intros purl. rewrite Hlisting. by destruct (decide (purl ∈ purls)).
Qed.

End Listing.

(** C1: when the coordinate list is built from a list of records, the
    cache built from the same list is built too, and the lookup of each
    coordinate of the list in the cache returns a package, never an absent
    result; so [main] never throws its assertion failure. *)
Theorem coordinate_cache_round_trip :
  (∀ submodules purls,
     processSubmoduleUrls submodules = OK purls →
     ∃ cache,
       processSubmoduleCache submodules = OK cache ∧
       ∀ purl, purl ∈ purls →
               PackageCache_lookupPackage cache purl = Some (new_Package purl)) ∧
  (∀ env order, main env order ≠ Throw AssertionFailed).
Proof.
  split.
  - intros submodules purls Hurls.
    unfold processSubmoduleUrls, processSubmoduleCache in *.
    destruct (processSubmoduleUrls_from_cases [] submodules)
      as [(derived & Hderived & Hok)|(s & e & _ & _ & Hthrow)]; [|congruence].
    rewrite Hok in Hurls. injection Hurls as <-.
    exists (foldl PackageCache_package ∅ derived).
    split; [by apply processSubmoduleCache_from_derived|].
    intros purl Hpurl. unfold PackageCache_lookupPackage.
    rewrite lookup_packages. by rewrite decide_True.
  - intros env order Hmain. unfold main in Hmain.
    destruct (parseSubmoduleManifest env order (core_getInput env "manifest"))
      as [submoduleList|e] eqn:Hparse; cbn [andThen] in Hmain.
    + unfold processSubmoduleUrls, processSubmoduleCache in Hmain.
      destruct (processSubmoduleUrls_from_cases [] submoduleList)
        as [(purls & Hpurls & Hurls)|(s & e & _ & Hs & Hurls)];
        rewrite Hurls in Hmain; cbn [andThen] in Hmain.
      * rewrite (processSubmoduleCache_from_derived _ _ _ Hpurls) in Hmain.
        cbn [andThen app] in Hmain.
        destruct (addPurls _ _ _ _) as [listing|e] eqn:Hadd; [done|].
        apply addPurls_throw in Hadd as [_ (purl & Hpurl & Hnone)].
        rewrite lookup_packages in Hnone. by rewrite decide_True in Hnone.
      * injection Hmain as ->.
        apply processSubmodule_throw in Hs as [|[|[|[? ?]]]]; done.
    + injection Hmain as ->.
      apply parseSubmoduleManifest_throw in Hparse as [[? _]|(_ & _ & [|[[? ?]|]])];
        done.
Qed.

Lemma coordinate_cache_round_trip_witness :
  processSubmoduleUrls [recordA; recordB] = OK [purlA; purlB] ∧
  ∃ cache,
    processSubmoduleCache [recordA; recordB] = OK cache ∧
    ∀ purl, purl ∈ [purlA; purlB] →
            PackageCache_lookupPackage cache purl = Some (new_Package purl).
Proof.
  split; [vm_compute; reflexivity|].
  apply (proj1 coordinate_cache_round_trip [recordA; recordB]).
  vm_compute. reflexivity.
Defined.

(** C8: in the listing [main] assembles there is an entry for the
    coordinate of every record of the manifest, and the scope of an entry is
    development when the name of its dependency is contained in the
    development-deps input, and runtime otherwise. *)
Theorem listing_scope env order snapshot :
  main env order = OK snapshot →
  ∃ submoduleList listing,
    parseSubmoduleManifest env order (core_getInput env "manifest") =
      OK submoduleList ∧
    manifests snapshot = [listing] ∧
    (∀ submodule, submodule ∈ submoduleList →
       ∃ purl dep, processSubmodule submodule = OK purl ∧
                   resolved listing !! purl = Some dep) ∧
    (∀ purl dep, resolved listing !! purl = Some dep →
       Package_name (dep_package dep) = purl_name purl ∧
       dep_scope dep =
         if includes (core_getInput env "development-deps")
                     (Package_name (dep_package dep))
         then development else runtime).
Proof.
  intros (submoduleList & purls & listing & Hparse & Hpurls & Hlisting & Hresolved)%main_inv.
  exists submoduleList, listing. split_and!; [done..| |].
  - intros submodule (i & Hi)%list_elem_of_lookup_1.
    destruct (Forall2_lookup_l _ _ _ _ _ Hpurls Hi) as (purl & Hpurl & Hderived).
    exists purl, (entryOf (core_getInput env "development-deps") purl).
    split; [done|]. rewrite Hresolved.
    by rewrite decide_True by by eapply list_elem_of_lookup_2.
  - intros purl dep. rewrite Hresolved.
    destruct (decide (purl ∈ purls)); [|done]. by intros [= <-].
Qed.

Lemma listing_scope_witness :
  main (exampleEnv exampleManifest "dep-a") [] = OK (exampleSnapshot exampleListing) ∧
  dep_scope <$> resolved exampleListing !! purlA = Some development ∧
  dep_scope <$> resolved exampleListing !! purlB = Some runtime ∧
  ∀ purl dep, resolved exampleListing !! purl = Some dep →
    Package_name (dep_package dep) = purl_name purl ∧
    dep_scope dep =
      if includes "dep-a" (Package_name (dep_package dep))
      then development else runtime.
Proof.
  assert (main (exampleEnv exampleManifest "dep-a") [] =
          OK (exampleSnapshot exampleListing)) as Hmain
    by (vm_compute; reflexivity).
  destruct (listing_scope _ _ _ Hmain)
    as (submoduleList & listing & _ & Hlisting & _ & Hscope).
  change ([exampleListing] = [listing]) in Hlisting. injection Hlisting as <-.
  split_and!; [exact Hmain|vm_compute; reflexivity..|exact Hscope].
Defined.

(** C10: the test for the development scope is a substring match against
    the whole development-deps input: a dependency of the listing is scoped
    as development when its name occurs anywhere inside the input, and as
    runtime when it does not.  It is not membership in the comma-separated
    entries: with the input dep-a, a dependency named dep is scoped as
    development. *)
Theorem scope_test_is_substring :
  (∀ env order snapshot listing purl dep,
     main env order = OK snapshot → listing ∈ manifests snapshot →
     resolved listing !! purl = Some dep →
     (includes (core_getInput env "development-deps")
               (Package_name (dep_package dep)) = true →
      dep_scope dep = development) ∧
     (includes (core_getInput env "development-deps")
               (Package_name (dep_package dep)) = false →
      dep_scope dep = runtime)) ∧
  (∃ snapshot listing dep,
     main (exampleEnv shortNameManifest "dep-a") [] = OK snapshot ∧
     listing ∈ manifests snapshot ∧
     resolved listing !! purlDep = Some dep ∧
     Package_name (dep_package dep) = "dep" ∧
     ("dep" ∉ split ","%char "dep-a") ∧
     dep_scope dep = development).
Proof.
  split.
  - intros env order snapshot listing purl dep
      (_ & purls & listing' & _ & _ & Hlisting & Hresolved)%main_inv Hin Hdep.
    rewrite Hlisting in Hin. apply list_elem_of_singleton in Hin as ->.
    rewrite Hresolved in Hdep. destruct (decide (purl ∈ purls)); [|done].
    injection Hdep as <-. unfold entryOf, scopeOf. cbn [dep_scope dep_package].
    split; by intros ->.
  - exists (exampleSnapshot shortNameListing), shortNameListing,
      (entryOf "dep-a" purlDep). split_and!.
    + vm_compute. reflexivity.
    + apply list_elem_of_here.
    + vm_compute. reflexivity.
    + reflexivity.
    + vm_compute. by intros [=]%list_elem_of_singleton.
    + reflexivity.
Qed.

Lemma scope_test_is_substring_witness :
  main (exampleEnv shortNameManifest "dep-a") [] =
    OK (exampleSnapshot shortNameListing) ∧
  resolved shortNameListing !! purlDep = Some (entryOf "dep-a" purlDep) ∧
  dep_scope (entryOf "dep-a" purlDep) = development ∧
  main (exampleEnv exampleManifest "dep-a") [] = OK (exampleSnapshot exampleListing) ∧
  resolved exampleListing !! purlB = Some (entryOf "dep-a" purlB) ∧
  dep_scope (entryOf "dep-a" purlB) = runtime.
Proof.
  assert (main (exampleEnv shortNameManifest "dep-a") [] =
          OK (exampleSnapshot shortNameListing)) as Hmain
    by (vm_compute; reflexivity).
  assert (resolved shortNameListing !! purlDep = Some (entryOf "dep-a" purlDep))
    as Hdep by (vm_compute; reflexivity).
  assert (main (exampleEnv exampleManifest "dep-a") [] =
          OK (exampleSnapshot exampleListing)) as Hmain'
    by (vm_compute; reflexivity).
  assert (resolved exampleListing !! purlB = Some (entryOf "dep-a" purlB))
    as Hdep' by (vm_compute; reflexivity).
  split_and!; [exact Hmain|exact Hdep| |exact Hmain'|exact Hdep'|].
  - apply (proj1 scope_test_is_substring
             (exampleEnv shortNameManifest "dep-a") [] _ shortNameListing purlDep _
             Hmain); [apply list_elem_of_here|exact Hdep|reflexivity].
  - apply (proj1 scope_test_is_substring
             (exampleEnv exampleManifest "dep-a") [] _ exampleListing purlB _
             Hmain'); [apply list_elem_of_here|exact Hdep'|reflexivity].
Defined.

(** ** Version resolution, write-back and the manifest guard *)

(** C4 (the code where the claim fails): [exec.getExecOutput] is called
    with the working directory only, so a tag command that ends with a
    non-zero exit status rejects the promise, and [processSubmoduleTag] throws
    that exception whatever the hash command would print: the fallback to the
    short hash and the throw of 'Failed to execute git' are never reached.
    When the tag command ends with the status 0 its output is returned as it
    is, line feed included; an exception of the resolution of one record
    makes [parseSubmoduleManifest] throw, and [main] with it.  In the checkout
    without a tag of [untaggedEnv] the hash command would print abc1234, and
    the function throws. *)
Theorem hash_fallback_unreachable :
  (∀ env modulePath described,
     exec_process env "git" ["describe"; "--tags"]
       (path_normalize env modulePath) = Returned described →
     exitCode described = 0%Z →
     processSubmoduleTag env modulePath = OK (stdout described)) ∧
  (∀ env modulePath described,
     exec_process env "git" ["describe"; "--tags"]
       (path_normalize env modulePath) = Returned described →
     exitCode described ≠ 0%Z →
     processSubmoduleTag env modulePath =
     Throw (External (exitMessage "git" described))) ∧
  (∀ env modulePath,
     processSubmoduleTag env modulePath ≠ Throw VersionResolutionFailed) ∧
  (∀ env order manifest manifestFile submodule e,
     path_basename env (path_normalize env manifest) = ".gitmodules" →
     fs_existsSync env (path_normalize env manifest) = true →
     fs_readFileSync env (path_normalize env manifest) = Returned manifestFile →
     submodule ∈ scanManifest manifestFile →
     processSubmoduleTag env (path submodule) = Throw e →
     ∃ e', parseSubmoduleManifest env order manifest = Throw e' ∧
           ∃ failed, failed ∈ scanManifest manifestFile ∧
                     processSubmoduleTag env (path failed) = Throw e') ∧
  (∀ env order e,
     parseSubmoduleManifest env order (core_getInput env "manifest") = Throw e →
     main env order = Throw e) ∧
  (exec_process untaggedEnv "git" ["rev-parse"; "--short"; "HEAD"] "libs/dep-b" =
     Returned (mkExecOutput 0 ("abc1234" +:+ lineFeed) "") ∧
   processSubmoduleTag untaggedEnv "libs/dep-b" =
     Throw (External "The process 'git' failed with exit code 128")) ∧
  processSubmoduleTag taggedEnv "libs/dep-a" = OK ("v1.2.3" +:+ lineFeed).
Proof.
  split_and!.
  - intros env modulePath described Hdescribed Hzero.
    rewrite processSubmoduleTag_cases, Hdescribed.
    by rewrite bool_decide_eq_false_2 by by intros [].
  - intros env modulePath described Hdescribed Hfailed.
    rewrite processSubmoduleTag_cases, Hdescribed.
    by rewrite (bool_decide_eq_true_2 _ Hfailed).
  - intros env modulePath Hthrow.
    apply processSubmoduleTag_throw in Hthrow as Hcases.
    rewrite processSubmoduleTag_cases in Hthrow.
    destruct (exec_process env "git" ["describe"; "--tags"] _)
      as [described|message]; [|done].
    by case_bool_decide.
  - intros env order manifest manifestFile submodule e Hbase Hexists Hread
      (i & Hi)%list_elem_of_lookup_1 Hthrow.
    unfold parseSubmoduleManifest. rewrite Hbase, Hexists, Hread.
    rewrite bool_decide_eq_false_2 by by intros []. cbn [negb orb call andThen].
    destruct (Promise_all_rejected order
                ((λ s, processSubmoduleTag env (path s)) <$> scanManifest manifestFile)
                i e) as (j & e' & Hj & ->).
    { by rewrite list_lookup_fmap, Hi, <- Hthrow. }
    exists e'. split; [done|].
    apply list_lookup_fmap_Some in Hj as (failed & Hfailed & Hin).
    exists failed. split; [by eapply list_elem_of_lookup_2|done].
  - intros env order e Hparse. unfold main. by rewrite Hparse.
  - reflexivity.
  - vm_compute. reflexivity.
  - vm_compute. reflexivity.
Qed.

Lemma hash_fallback_unreachable_witness :
  processSubmoduleTag (exampleEnv brokenManifest "") "libs/dep-a" = OK "v1.2.3" ∧
  processSubmoduleTag (exampleEnv brokenManifest "") "libs/dep-c" =
    Throw (External "The process 'git' failed with exit code 128") ∧
  (∃ e, parseSubmoduleManifest (exampleEnv brokenManifest "") [] ".gitmodules" =
        Throw e) ∧
  main (exampleEnv brokenManifest "") [] =
    Throw (External "The process 'git' failed with exit code 128").
Proof.
  destruct hash_fallback_unreachable
    as (Htag & Hfail & _ & Hparse & Hmain & _ & _).
  split_and!.
  - apply (Htag (exampleEnv brokenManifest "") "libs/dep-a"
             (mkExecOutput 0 "v1.2.3" "")); reflexivity.
  - apply (Hfail (exampleEnv brokenManifest "") "libs/dep-c"
             (mkExecOutput 128 "" "fatal: not a git repository"));
      [reflexivity|done].
  - destruct (Hparse (exampleEnv brokenManifest "") [] ".gitmodules" brokenManifest
                {| name := "dep-c"; path := "libs/dep-c";
                   url := "https://github.com/org/dep-c.git"; tag := "" |}
                (External "The process 'git' failed with exit code 128"))
      as (e & He & _).
    + reflexivity.
    + reflexivity.
    + reflexivity.
    + vm_compute. apply list_elem_of_further, list_elem_of_here.
    + vm_compute. reflexivity.
    + by exists e.
  - apply Hmain. vm_compute. reflexivity.
Defined.

(** C6: when the parser returns, its records are the records of the scan,
    in the order of the scan, and the record at index i carries the version
    resolved for the path of the i-th scanned record; the completion order of
    the resolutions has no part in it: with any other order the parser
    returns the same records. *)
Theorem versions_written_by_index env order manifest records :
  parseSubmoduleManifest env order manifest = OK records →
  ∃ manifestFile,
    fs_readFileSync env (path_normalize env manifest) = Returned manifestFile ∧
    length records = length (scanManifest manifestFile) ∧
    (∀ i submodule, scanManifest manifestFile !! i = Some submodule →
       ∃ version, processSubmoduleTag env (path submodule) = OK version ∧
                  records !! i = Some (setTag submodule version)) ∧
    ∀ order', parseSubmoduleManifest env order' manifest = OK records.
Proof.
  intros (manifestFile & tags & Hbase & Hexists & Hread & Htags & ->)%parseSubmoduleManifest_inv.
  exists manifestFile. pose proof (Forall2_length _ _ _ Htags) as Hlen.
  split_and!; [done| | |].
  - rewrite length_zip_with. lia.
  - intros i submodule Hi.
    destruct (Forall2_lookup_l _ _ _ _ _ Htags Hi) as (version & Hversion & Hresolved).
    exists version. split; [done|].
    apply lookup_zip_with_Some. eauto.
  - intros order'. by apply parseSubmoduleManifest_resolved.
Qed.

Lemma versions_written_by_index_witness :
  parseSubmoduleManifest (exampleEnv exampleManifest "") [1; 0]%nat ".gitmodules" =
    OK [recordA; recordB] ∧
  parseSubmoduleManifest (exampleEnv exampleManifest "") [0; 1]%nat ".gitmodules" =
    OK [recordA; recordB].
Proof.
  assert (parseSubmoduleManifest (exampleEnv exampleManifest "") [1; 0]%nat
            ".gitmodules" = OK [recordA; recordB]) as Hparse
    by (vm_compute; reflexivity).
  split; [exact Hparse|].
  destruct (versions_written_by_index _ _ _ _ Hparse) as (_ & _ & _ & _ & Horder).
  apply Horder.
Defined.

(** C7: [parseSubmoduleManifest] throws ManifestNotFound exactly when the
    base name of the normalized path is not .gitmodules or the file does not
    exist; and then it throws whatever the file holds and whatever git would
    answer, for it has read neither. *)
Theorem manifest_not_found env order manifest :
  ((∃ manifestPath,
      parseSubmoduleManifest env order manifest =
      Throw (ManifestNotFound manifestPath)) ↔
   (path_basename env (path_normalize env manifest) ≠ ".gitmodules" ∨
    fs_existsSync env (path_normalize env manifest) = false)) ∧
  ∀ readFileSync process order',
    path_basename env (path_normalize env manifest) ≠ ".gitmodules" ∨
    fs_existsSync env (path_normalize env manifest) = false →
    parseSubmoduleManifest
      {| path_normalize := path_normalize env;
         path_basename := path_basename env;
         fs_existsSync := fs_existsSync env;
         fs_readFileSync := readFileSync;
         exec_process := process;
         core_getInput := core_getInput env;
         package_version := package_version env |} order' manifest =
    Throw (ManifestNotFound (path_normalize env manifest)).
Proof.
  split; [split|].
  - intros [manifestPath Hthrow].
    apply parseSubmoduleManifest_throw in Hthrow
      as [[_ ?]|(_ & _ & [|[[? ?]|]])]; done.
  - intros Hguard. exists (path_normalize env manifest).
    unfold parseSubmoduleManifest. destruct Hguard as [Hbase|Hexists].
    + by rewrite (bool_decide_eq_true_2 _ Hbase).
    + by rewrite Hexists, orb_true_r.
  - intros readFileSync process order' Hguard.
    unfold parseSubmoduleManifest. cbn. destruct Hguard as [Hbase|Hexists].
    + by rewrite (bool_decide_eq_true_2 _ Hbase).
    + by rewrite Hexists, orb_true_r.
Qed.

Lemma manifest_not_found_witness :
  parseSubmoduleManifest (exampleEnv exampleManifest "") [] "modules.txt" =
    Throw (ManifestNotFound "modules.txt") ∧
  parseSubmoduleManifest (exampleEnv exampleManifest "") [] "libs/.gitmodules" =
    Throw (ManifestNotFound "libs/.gitmodules") ∧
  (path_basename (exampleEnv exampleManifest "") ".gitmodules" = ".gitmodules" ∧
   fs_existsSync (exampleEnv exampleManifest "") ".gitmodules" = true ∧
   parseSubmoduleManifest (exampleEnv exampleManifest "") [] ".gitmodules" =
     OK [recordA; recordB]).
Proof.
  split_and!.
  - apply (proj2 (manifest_not_found (exampleEnv exampleManifest "") []
                    "modules.txt")
             (fs_readFileSync (exampleEnv exampleManifest ""))
             (exec_process (exampleEnv exampleManifest "")) []).
    left. vm_compute. discriminate.
  - apply (proj2 (manifest_not_found (exampleEnv exampleManifest "") []
                    "libs/.gitmodules")
             (fs_readFileSync (exampleEnv exampleManifest ""))
             (exec_process (exampleEnv exampleManifest "")) []).
    right. vm_compute. reflexivity.
  - reflexivity.
  - reflexivity.
  - vm_compute. reflexivity.
Defined.

(** ** Further properties of the coordinate builder *)

Section MoreStrings.

Implicit Types (s : string) (c : ascii).

Lemma split_pieces_free c s :
  Forall (λ piece, freeOf c piece = true) (split c s).
Proof.
  induction s as [|d s IH]; [by repeat constructor|]. cbn [split].
  destruct (Ascii.eqb d c) eqn:Hd; [by constructor|].
  destruct (split c s) as [|piece pieces]; [by repeat constructor; cbn; rewrite Hd|].
  apply Forall_cons in IH as [Hpiece Hpieces]. constructor; [|done].
  cbn. by rewrite Hd, Hpiece.
Qed.

Lemma first_split_free c d s :
  freeOf d s = true → freeOf d (first (split c s)) = true.
Proof.
  intros Hs. destruct (first_split c s) as (rest & Heq & _).
  rewrite Heq, freeOf_app in Hs. by apply andb_true_iff in Hs as [? _].
Qed.

End MoreStrings.

(** X1: [processSubmodule] throws IncompleteSubmodule exactly when one of
    the four fields of the record is empty; no later step of the function
    raises that exception. *)
Theorem incomplete_exactly_when_empty_field submodule :
  processSubmodule submodule = Throw IncompleteSubmodule ↔
  name submodule = "" ∨ path submodule = "" ∨ url submodule = "" ∨
  tag submodule = "".
Proof.
  unfold processSubmodule. case_bool_decide as Hguard; [done|].
  split; [|done].
  destruct (split "/"%char (url submodule) !! 4%nat); [|done].
  destruct (split "/"%char (url submodule) !! 2%nat) as [host|]; [|done].
  case_bool_decide; [|done].
  unfold new_PackageURL. by case_bool_decide.
Qed.

(** X2: the coordinate is a function of the url and of the version alone:
    two complete records with the same url, whatever their names and paths,
    fail with the same exception or give coordinates that differ in their
    version only, each carrying the version of its record. *)
Theorem coordinate_from_url_and_tag s1 s2 :
  isComplete s1 → isComplete s2 → url s1 = url s2 →
  (∀ e, processSubmodule s1 = Throw e → processSubmodule s2 = Throw e) ∧
  (∀ p1, processSubmodule s1 = OK p1 →
         processSubmodule s2 =
         OK {| purl_type := purl_type p1; purl_namespace := purl_namespace p1;
               purl_name := purl_name p1; purl_version := tag s2 |} ∧
         purl_version p1 = tag s1).
Proof.
  intros Hc1 Hc2 Hurl. unfold processSubmodule.
  rewrite (isComplete_guard _ Hc1), (isComplete_guard _ Hc2), Hurl.
  destruct Hc1 as (_ & _ & _ & Htag1), Hc2 as (_ & _ & _ & Htag2).
  destruct (split "/"%char (url s2) !! 4%nat) as [repository|]; [|done].
  destruct (split "/"%char (url s2) !! 2%nat) as [host|]; [|done].
  case_bool_decide; [|done]. unfold new_PackageURL.
  destruct (decide (first (split "."%char host) = "" ∨
                    split "/"%char (url s2) !! 3%nat = None ∨
                    split "/"%char (url s2) !! 3%nat = Some "" ∨
                    first (split "."%char repository) = "")) as [Hbad|Hgood].
  - rewrite !bool_decide_eq_true_2 by tauto. done.
  - rewrite !bool_decide_eq_false_2 by tauto. split; [done|].
    by intros p1 [= <-].
Qed.

Lemma coordinate_from_url_and_tag_witness :
  processSubmodule
    {| name := "renamed"; path := "vendor/a";
       url := "https://github.com/org/dep-a.git"; tag := "v2.0.0" |} =
  OK {| purl_type := "github"; purl_namespace := Some "org";
        purl_name := "dep-a"; purl_version := "v2.0.0" |}.
Proof.
  apply (proj2 (coordinate_from_url_and_tag recordA
           {| name := "renamed"; path := "vendor/a";
              url := "https://github.com/org/dep-a.git"; tag := "v2.0.0" |}
           ltac:(by repeat split) ltac:(by repeat split) eq_refl) purlA).
  reflexivity.
Defined.

(** X3: a coordinate that [processSubmodule] returns comes from a complete
    record whose url has the segment github.com at index 2; its type is
    github, its namespace the segment at index 3, its name the start of the
    segment at index 4 up to the first dot, its version the version of the
    record; so the name holds neither a slash nor a dot. *)
Theorem coordinate_shape submodule purl :
  processSubmodule submodule = OK purl →
  isComplete submodule ∧
  split "/"%char (url submodule) !! 2%nat = Some "github.com" ∧
  purl_type purl = "github" ∧
  purl_namespace purl = split "/"%char (url submodule) !! 3%nat ∧
  (∃ repository,
     split "/"%char (url submodule) !! 4%nat = Some repository ∧
     purl_name purl = first (split "."%char repository)) ∧
  purl_version purl = tag submodule ∧
  freeOf "/"%char (purl_name purl) = true ∧
  freeOf "."%char (purl_name purl) = true.
Proof.
  unfold processSubmodule. case_bool_decide as Hguard; [done|].
  destruct (split "/"%char (url submodule) !! 4%nat) as [repository|] eqn:Hrepo;
    [|done].
  destruct (split "/"%char (url submodule) !! 2%nat) as [host|]; [|done].
  case_bool_decide as Hhost; [subst host|done].
  unfold new_PackageURL. case_bool_decide; [done|]. intros [= <-]. cbn.
  split_and!; try done.
  - unfold isComplete. tauto.
  - by exists repository.
  - apply first_split_free.
    pose proof (split_pieces_free "/"%char (url submodule)) as Hfree.
    rewrite Forall_forall in Hfree. by eapply Hfree, list_elem_of_lookup_2.
  - by destruct (first_split "."%char repository) as (? & _ & ? & _).
Qed.

Lemma coordinate_shape_witness :
  purl_type purlA = "github" ∧ purl_version purlA = tag recordA ∧
  freeOf "."%char (purl_name purlA) = true.
Proof.
  destruct (coordinate_shape recordA purlA eq_refl)
    as (_ & _ & Htype & _ & _ & Hversion & _ & Hdot).
  by split_and!.
Defined.

(** ** Further properties of the coordinate list and of the cache *)

Section Stages.

Implicit Types (submodules : list Submodule) (purls derived : list PackageURL)
  (cache : gmap PackageURL Package).

Lemma processSubmoduleUrls_from_ok purls submodules derived :
  Forall2 (λ submodule purl, processSubmodule submodule = OK purl)
          submodules derived →
  processSubmoduleUrls_from purls submodules = OK (purls ++ derived).
Proof.
  intros Hall. revert purls.
  induction Hall as [|submodule purl submodules derived Hpurl _ IH]; intros purls.
  - by rewrite app_nil_r.
  - cbn [processSubmoduleUrls_from]. rewrite Hpurl. cbn [andThen].
    rewrite IH. by rewrite <- app_assoc.
Qed.

Lemma processSubmoduleUrls_from_first purls before failed after e :
  Forall (λ submodule, ∃ purl, processSubmodule submodule = OK purl) before →
  processSubmodule failed = Throw e →
  processSubmoduleUrls_from purls (before ++ failed :: after) = Throw e.
Proof.
  intros Hbefore Hfailed. revert purls.
  induction Hbefore as [|submodule before [purl Hpurl] _ IH]; intros purls.
  - cbn. by rewrite Hfailed.
  - cbn [app processSubmoduleUrls_from]. rewrite Hpurl. cbn [andThen]. apply IH.
Qed.

Lemma processSubmoduleCache_from_first cache before failed after e :
  Forall (λ submodule, ∃ purl, processSubmodule submodule = OK purl) before →
  processSubmodule failed = Throw e →
  processSubmoduleCache_from cache (before ++ failed :: after) = Throw e.
Proof.
  intros Hbefore Hfailed. revert cache.
  induction Hbefore as [|submodule before [purl Hpurl] _ IH]; intros cache.
  - cbn. by rewrite Hfailed.
  - cbn [app processSubmoduleCache_from]. rewrite Hpurl. cbn [andThen]. apply IH.
Qed.

(** Every list of records either derives throughout, or has a first record
    whose derivation throws. *)
Lemma derivation_cases submodules :
  (∃ derived,
     Forall2 (λ submodule purl, processSubmodule submodule = OK purl)
             submodules derived) ∨
  (∃ before failed after e,
     submodules = before ++ failed :: after ∧
     Forall (λ submodule, ∃ purl, processSubmodule submodule = OK purl) before ∧
     processSubmodule failed = Throw e).
Proof.
  induction submodules as [|submodule submodules IH].
  - left. by exists [].
  - destruct (processSubmodule submodule) as [purl|e] eqn:Hpurl.
    + destruct IH as [[derived Hall]|(before & failed & after & e & -> & Hbefore & He)].
      * left. exists (purl :: derived). by constructor.
      * right. exists (submodule :: before), failed, after, e.
        split_and!; [done| |done]. constructor; [by exists purl|done].
    + right. exists [], submodule, submodules, e. by split_and!.
Qed.

Lemma derivation_functional submodules derived derived' :
  Forall2 (λ submodule purl, processSubmodule submodule = OK purl)
          submodules derived →
  Forall2 (λ submodule purl, processSubmodule submodule = OK purl)
          submodules derived' →
  derived = derived'.
Proof.
  intros Hall. revert derived'.
  induction Hall as [|s p ss ps Hp _ IH]; intros derived' Hall';
    inversion Hall' as [|? p' ? ps' Hp' Hps']; subst; [done|].
  f_equal; [congruence|by apply IH].
Qed.

End Stages.

(** X4: [processSubmoduleUrls] returns the coordinates of the records one
    for one and in their order, and only when every record derives; else it
    throws the exception of the first record whose derivation throws,
    whatever comes after it. *)
Theorem coordinates_in_order submodules :
  (∀ purls,
     processSubmoduleUrls submodules = OK purls ↔
     Forall2 (λ submodule purl, processSubmodule submodule = OK purl)
             submodules purls) ∧
  (∀ e,
     processSubmoduleUrls submodules = Throw e ↔
     ∃ before failed after,
       submodules = before ++ failed :: after ∧
       Forall (λ submodule, ∃ purl, processSubmodule submodule = OK purl) before ∧
       processSubmodule failed = Throw e).
Proof.
  unfold processSubmoduleUrls. split.
  - intros purls. split.
    + intros Hok.
      destruct (derivation_cases submodules)
        as [[derived Hall]|(before & failed & after & e & -> & Hbefore & He)].
      * rewrite (processSubmoduleUrls_from_ok [] _ _ Hall) in Hok.
        by injection Hok as <-.
      * by rewrite (processSubmoduleUrls_from_first [] _ _ _ _ Hbefore He) in Hok.
    + apply (processSubmoduleUrls_from_ok []).
  - intros e. split.
    + intros Hthrow.
      destruct (derivation_cases submodules)
        as [[derived Hall]|(before & failed & after & e' & -> & Hbefore & He)].
      * by rewrite (processSubmoduleUrls_from_ok [] _ _ Hall) in Hthrow.
      * rewrite (processSubmoduleUrls_from_first [] _ _ _ _ Hbefore He) in Hthrow.
        injection Hthrow as <-. by exists before, failed, after.
    + intros (before & failed & after & -> & Hbefore & He).
      by apply processSubmoduleUrls_from_first.
Qed.

(** X5: on the same list of records [processSubmoduleCache] throws exactly
    when [processSubmoduleUrls] does, and the same exception. *)
Theorem cache_fails_as_coordinates submodules e :
  processSubmoduleCache submodules = Throw e ↔
  processSubmoduleUrls submodules = Throw e.
Proof.
  unfold processSubmoduleCache, processSubmoduleUrls.
  destruct (derivation_cases submodules)
    as [[derived Hall]|(before & failed & after & e' & -> & Hbefore & He)].
  - rewrite (processSubmoduleCache_from_derived _ _ _ Hall).
    rewrite (processSubmoduleUrls_from_ok [] _ _ Hall). split; intros [=].
  - rewrite (processSubmoduleCache_from_first ∅ _ _ _ _ Hbefore He).
    rewrite (processSubmoduleUrls_from_first [] _ _ _ _ Hbefore He).
    split; by intros [= ->].
Qed.

(** X6: the cache [processSubmoduleCache] returns holds the coordinates of
    the records and nothing else: a lookup returns a package exactly for the
    coordinates derived from the list, and that package wraps the coordinate;
    records with the same coordinate share one entry, so the cache has at
    most as many entries as there are records. *)
Theorem cache_holds_the_coordinates submodules cache :
  processSubmoduleCache submodules = OK cache →
  (∀ purl pkg,
     PackageCache_lookupPackage cache purl = Some pkg ↔
     pkg = new_Package purl ∧
     ∃ submodule, submodule ∈ submodules ∧ processSubmodule submodule = OK purl) ∧
  size cache ≤ length submodules.
Proof.
  unfold processSubmoduleCache, PackageCache_lookupPackage. intros Hcache.
  destruct (derivation_cases submodules)
    as [[derived Hall]|(before & failed & after & e' & -> & Hbefore & He)];
    [|by rewrite (processSubmoduleCache_from_first ∅ _ _ _ _ Hbefore He) in Hcache].
  rewrite (processSubmoduleCache_from_derived _ _ _ Hall) in Hcache.
  injection Hcache as <-. split.
  - intros purl pkg. rewrite lookup_packages, lookup_empty.
    destruct (decide (purl ∈ derived)) as [Hin|Hout].
    + split.
      * intros [= <-]. split; [done|].
        apply list_elem_of_lookup_1 in Hin as [i Hi].
        destruct (Forall2_lookup_r _ _ _ _ _ Hall Hi) as (s & Hs & Hderive).
        exists s. split; [by eapply list_elem_of_lookup_2|done].
      * by intros [-> _].
    + split; [done|]. intros [_ (s & [i Hi]%list_elem_of_lookup_1 & Hs)].
      destruct (Forall2_lookup_l _ _ _ _ _ Hall Hi) as (p & Hp & Hderive).
      destruct Hout. apply list_elem_of_lookup_2 with i. congruence.
  - rewrite (Forall2_length _ _ _ Hall). clear Hall.
    assert (∀ (cache : gmap PackageURL Package),
              size (foldl PackageCache_package cache derived) ≤
              size cache + length derived) as Hsize.
    { induction derived as [|added derived IH]; intros cache; cbn [foldl length];
        [lia|].
      etrans; [apply IH|]. unfold PackageCache_package.
      destruct (cache !! added) eqn:Hadded.
      - rewrite map_size_insert_Some by done. lia.
      - rewrite map_size_insert_None by done. lia. }
    specialize (Hsize ∅). by rewrite map_size_empty in Hsize.
Qed.

Lemma cache_holds_the_coordinates_witness :
  ∃ cache,
    processSubmoduleCache [recordA; recordB; recordA] = OK cache ∧
    PackageCache_lookupPackage cache purlA = Some (new_Package purlA) ∧
    size cache ≤ 3.
Proof.
  destruct (processSubmoduleCache [recordA; recordB; recordA]) as [cache|e]
    eqn:Hcache; [|discriminate Hcache].
  destruct (cache_holds_the_coordinates _ _ Hcache) as [Hlookup Hsize].
  exists cache. split_and!; [done| |exact Hsize].
  apply Hlookup. split; [done|]. exists recordA. split; [|reflexivity].
  apply list_elem_of_here.
Defined.

(** ** Further properties of the scan *)

Section MoreScan.

Implicit Types (acc : Submodule) (out : list Submodule) (line : string)
  (lines : list string) (c d : ascii) (s : string).

Lemma guard_false (field : string) (found : bool) :
  field ≠ "" ∨ found = false → bool_decide (field = "") && found = false.
Proof.
  intros [Hfield| ->]; [by rewrite (bool_decide_eq_false_2 _ Hfield)|].
  apply andb_false_r.
Qed.

Lemma assignField_skip acc line :
  name acc ≠ "" ∨ includes line sectionMarker = false →
  path acc ≠ "" ∨ includes line pathMarker = false →
  url acc ≠ "" ∨ includes line urlMarker = false →
  assignField acc line = acc.
Proof.
  intros Hname Hpath Hurl. unfold assignField.
  by rewrite (guard_false _ _ Hname), (guard_false _ _ Hpath),
    (guard_false _ _ Hurl).
Qed.

Lemma fieldsSet_complete acc : hasAllFields acc = true → fieldsSet acc = 3.
Proof.
  intros (Hname & Hpath & Hurl)%hasAllFields_true. unfold fieldsSet.
  by rewrite !bool_decide_eq_false_2 by done.
Qed.

Lemma fieldsSet_assignField acc line :
  fieldsSet (assignField acc line) ≤ fieldsSet acc + 1.
Proof.
  unfold assignField.
  destruct (bool_decide (name acc = "") && includes line sectionMarker) eqn:H1.
  { apply andb_true_iff in H1 as [H1%bool_decide_eq_true _]. unfold fieldsSet.
    cbn [name path url]. rewrite (bool_decide_eq_true_2 _ H1).
    repeat case_bool_decide; lia. }
  destruct (bool_decide (path acc = "") && includes line pathMarker) eqn:H2.
  { apply andb_true_iff in H2 as [H2%bool_decide_eq_true _]. unfold fieldsSet.
    cbn [name path url]. rewrite (bool_decide_eq_true_2 _ H2).
    repeat case_bool_decide; lia. }
  destruct (bool_decide (url acc = "") && includes line urlMarker) eqn:H3; [|lia].
  apply andb_true_iff in H3 as [H3%bool_decide_eq_true _]. unfold fieldsSet.
  cbn [name path url]. rewrite (bool_decide_eq_true_2 _ H3).
  repeat case_bool_decide; lia.
Qed.

Lemma scanLines_budget out acc lines :
  3 * length (scanLines out acc lines).1 + fieldsSet (scanLines out acc lines).2 ≤
  3 * length out + fieldsSet acc + length lines.
Proof.
  revert out acc. induction lines as [|line lines IH]; intros out acc;
    cbn [scanLines fst snd length]; [lia|].
  pose proof (fieldsSet_assignField acc line) as Hstep.
  destruct (hasAllFields (assignField acc line)) eqn:Hall.
  - etrans; [apply IH|]. rewrite length_app. cbn [length].
    apply fieldsSet_complete in Hall.
    change (fieldsSet emptySubmodule) with 0. lia.
  - etrans; [apply IH|]. lia.
Qed.

Lemma assignField_keeps_name acc line :
  name acc = "" → includes line sectionMarker = false →
  name (assignField acc line) = "".
Proof.
  intros Hname Hline. unfold assignField. rewrite Hline, andb_false_r.
  repeat match goal with |- context [if ?b then _ else _] => destruct b end; done.
Qed.

Lemma scanLines_no_name out acc lines :
  name acc = "" → Forall (λ line, includes line sectionMarker = false) lines →
  (scanLines out acc lines).1 = out.
Proof.
  intros Hname Hlines. revert acc Hname.
  induction Hlines as [|line lines Hline _ IH]; intros acc Hname; [done|].
  cbn [scanLines].
  pose proof (assignField_keeps_name acc line Hname Hline) as Hkept.
  rewrite (proj2 (hasAllFields_false _)) by tauto. by apply IH.
Qed.

Lemma split_keeps_free c d s :
  freeOf d s = true → Forall (λ piece, freeOf d piece = true) (split c s).
Proof.
  induction s as [|e s IH]; [by repeat constructor|]. cbn [split freeOf].
  intros [He Hs]%andb_true_iff. specialize (IH Hs).
  destruct (Ascii.eqb e c); [by constructor|].
  destruct (split c s) as [|piece pieces]; [by repeat constructor; cbn; rewrite He|].
  apply Forall_cons in IH as [Hpiece Hpieces]. constructor; [|done].
  cbn. by rewrite He, Hpiece.
Qed.

Lemma second_free d (parts : list string) :
  Forall (λ piece, freeOf d piece = true) parts → freeOf d (second parts) = true.
Proof.
  intros Hparts. unfold second.
  destruct parts as [|p0 [|p1 ps]]; [done..|].
  by apply Forall_cons in Hparts as [_ [? _]%Forall_cons].
Qed.

Lemma trimStart_free d s : freeOf d s = true → freeOf d (trimStart s) = true.
Proof.
  induction s as [|e s IH]; [done|]. cbn [trimStart]. intros Hs.
  destruct (isWhiteSpace e); [|done]. cbn in Hs.
  apply andb_true_iff in Hs as [_ Hs]. by apply IH.
Qed.

Lemma trimEnd_free d s : freeOf d s = true → freeOf d (trimEnd s) = true.
Proof.
  induction s as [|e s IH]; [done|]. cbn [trimEnd freeOf].
  intros [He Hs]%andb_true_iff. specialize (IH Hs).
  destruct (trimEnd s) as [|k kept].
  - destruct (isWhiteSpace e); [done|]. cbn. by rewrite He.
  - cbn [freeOf] in IH |- *. by rewrite He, IH.
Qed.

Lemma trim_free d s : freeOf d s = true → freeOf d (trim s) = true.
Proof. intros Hs. by apply trimEnd_free, trimStart_free. Qed.

Lemma emptySubmodule_clean : cleanRecord emptySubmodule.
Proof. by repeat split. Qed.

Lemma assignField_clean acc line :
  freeOf "010"%char line = true → cleanRecord acc →
  cleanRecord (assignField acc line).
Proof.
  intros Hline (Hn1 & Hn2 & Hp1 & Hp2 & Hu1 & Hu2 & Hp3 & Hu3).
  pose proof (second_free _ _ (split_pieces_free dquote line)) as Hq.
  pose proof (second_free _ _ (split_keeps_free dquote _ _ Hline)) as Hqn.
  pose proof (second_free _ _ (split_pieces_free "="%char line)) as He.
  pose proof (second_free _ _ (split_keeps_free "="%char _ _ Hline)) as Hen.
  unfold assignField.
  repeat match goal with |- context [if ?b then _ else _] => destruct b end;
    unfold cleanRecord; cbn [name path url];
    rewrite ?trim_idemp; split_and!; auto using trim_free.
Qed.

Lemma scanLines_clean out acc lines :
  Forall (λ line, freeOf "010"%char line = true) lines →
  Forall cleanRecord out → cleanRecord acc →
  Forall cleanRecord (scanLines out acc lines).1.
Proof.
  intros Hlines. revert out acc.
  induction Hlines as [|line lines Hline _ IH]; intros out acc Hout Hacc; [done|].
  cbn [scanLines]. pose proof (assignField_clean acc line Hline Hacc) as Hnext.
  destruct (hasAllFields (assignField acc line)).
  - apply IH; [|apply emptySubmodule_clean]. apply Forall_app. split; [done|].
    by apply Forall_singleton.
  - by apply IH.
Qed.

End MoreScan.

(** X7: within a record the first occurrence wins: a line is skipped when
    every marker it holds belongs to a field that the record under
    construction already has, be it a second path or url assignment or the
    header of another section. *)
Theorem repeated_assignment_skipped out acc line rest :
  hasAllFields acc = false →
  name acc ≠ "" ∨ includes line sectionMarker = false →
  path acc ≠ "" ∨ includes line pathMarker = false →
  url acc ≠ "" ∨ includes line urlMarker = false →
  scanLines out acc (line :: rest) = scanLines out acc rest.
Proof.
  intros Hacc Hname Hpath Hurl. cbn [scanLines].
  by rewrite assignField_skip, Hacc.
Qed.

Lemma repeated_assignment_skipped_witness :
  scanLines [] {| name := "dep-a"; path := "libs/dep-a"; url := ""; tag := "" |}
    [pathLine "libs/other"; sectionHeader "dep-b";
     urlLine "https://github.com/org/dep-a.git"] =
  ([ {| name := "dep-a"; path := "libs/dep-a";
        url := "https://github.com/org/dep-a.git"; tag := "" |} ],
   emptySubmodule).
Proof.
  rewrite repeated_assignment_skipped;
    [|reflexivity|by left|by left|by right].
  rewrite repeated_assignment_skipped;
    [|reflexivity|by left|by left|by right].
  reflexivity.
Defined.

(** X8: a line assigns at most one field, so every record takes at least
    three lines: a manifest of n lines gives at most n / 3 records. *)
Theorem three_lines_per_record manifestFile :
  3 * length (scanManifest manifestFile) ≤
  length (split "010"%char manifestFile).
Proof.
  unfold scanManifest.
  pose proof (scanLines_budget [] emptySubmodule (split "010"%char manifestFile))
    as Hbudget.
  change (fieldsSet emptySubmodule) with 0 in Hbudget. cbn [length] in Hbudget.
  lia.
Qed.

(** X9: a manifest without any line that holds the section marker, the
    empty file among them, gives no record: the parser returns the empty
    list, and no version is resolved. *)
Theorem no_header_no_record env order manifest manifestFile :
  path_basename env (path_normalize env manifest) = ".gitmodules" →
  fs_existsSync env (path_normalize env manifest) = true →
  fs_readFileSync env (path_normalize env manifest) = Returned manifestFile →
  Forall (λ line, includes line sectionMarker = false)
         (split "010"%char manifestFile) →
  scanManifest manifestFile = [] ∧
  parseSubmoduleManifest env order manifest = OK [].
Proof.
  intros Hbase Hexists Hread Hlines.
  assert (scanManifest manifestFile = []) as Hscan
    by by apply scanLines_no_name.
  split; [done|].
  rewrite (parseSubmoduleManifest_resolved env order manifest manifestFile []);
    [by rewrite Hscan|done..|by rewrite Hscan].
Qed.

Lemma no_header_no_record_witness :
  parseSubmoduleManifest (exampleEnv "" "") [] ".gitmodules" = OK [] ∧
  parseSubmoduleManifest
    (exampleEnv (join "010"%char [pathLine "libs/dep-a";
                                  urlLine "https://github.com/org/dep-a.git"]) "")
    [] ".gitmodules" = OK [].
Proof.
  split.
  - apply (no_header_no_record (exampleEnv "" "") [] ".gitmodules" "");
      [reflexivity..|by repeat constructor].
  - apply (no_header_no_record _ [] ".gitmodules"
             (join "010"%char [pathLine "libs/dep-a";
                               urlLine "https://github.com/org/dep-a.git"]));
      [reflexivity..|by repeat constructor].
Defined.

(** X10: whatever the manifest holds, the records the parser returns have a
    name without quote, a path and a url without equals sign and without
    white space around them, and none of these three contains a line end: the
    values are cut at the second equals sign of their line.  Nothing is said
    of the version, which is the output of git as it is. *)
Theorem parsed_records_clean env order manifest records :
  parseSubmoduleManifest env order manifest = OK records →
  Forall cleanRecord records.
Proof.
  intros (manifestFile & tags & _ & _ & _ & _ & ->)%parseSubmoduleManifest_inv.
  pose proof (scanLines_clean [] emptySubmodule (split "010"%char manifestFile)
                (split_pieces_free _ _) (Forall_nil_2 _) emptySubmodule_clean)
    as Hclean.
  fold (scanManifest manifestFile) in Hclean.
  apply Forall_forall. intros r (i & Hr)%list_elem_of_lookup_1.
  apply lookup_zip_with_Some in Hr as (s & version & -> & Hs & _).
  rewrite Forall_forall in Hclean. by apply (Hclean s), list_elem_of_lookup_2 with i.
Qed.

Lemma parsed_records_clean_witness :
  parseSubmoduleManifest
    (exampleEnv (join "010"%char
                   [sectionHeader "dep-a"; pathLine "libs/dep-a ";
                    urlLine "https://github.com/org/dep-a.git?ref=main"]) "")
    [] ".gitmodules" =
    OK [ {| name := "dep-a"; path := "libs/dep-a";
            url := "https://github.com/org/dep-a.git?ref"; tag := "v1.2.3" |} ] ∧
  Forall cleanRecord
    [ {| name := "dep-a"; path := "libs/dep-a";
         url := "https://github.com/org/dep-a.git?ref"; tag := "v1.2.3" |} ].
Proof.
  assert (parseSubmoduleManifest
            (exampleEnv (join "010"%char
                           [sectionHeader "dep-a"; pathLine "libs/dep-a ";
                            urlLine "https://github.com/org/dep-a.git?ref=main"]) "")
            [] ".gitmodules" =
          OK [ {| name := "dep-a"; path := "libs/dep-a";
                  url := "https://github.com/org/dep-a.git?ref"; tag := "v1.2.3" |} ])
    as Hparse by (vm_compute; reflexivity).
  split; [exact Hparse|]. exact (parsed_records_clean _ _ _ _ Hparse).
Defined.

(** ** Further properties of the parser, the resolver and [main] *)

(** X11: the parser throws for three reasons only: the guard on the path
    (ManifestNotFound), the failure of the read of the file, or the exception
    of the version resolution of one of the scanned records; the write-back
    by index never reads outside the records. *)
Theorem parser_exceptions env order manifest e :
  parseSubmoduleManifest env order manifest = Throw e →
  (e = ManifestNotFound (path_normalize env manifest) ∧
   (path_basename env (path_normalize env manifest) ≠ ".gitmodules" ∨
    fs_existsSync env (path_normalize env manifest) = false)) ∨
  (∃ message,
     fs_readFileSync env (path_normalize env manifest) = Failed message ∧
     e = External message) ∨
  (∃ manifestFile submodule,
     fs_readFileSync env (path_normalize env manifest) = Returned manifestFile ∧
     submodule ∈ scanManifest manifestFile ∧
     processSubmoduleTag env (path submodule) = Throw e).
Proof.
  unfold parseSubmoduleManifest. intros Hparse.
  destruct (decide (path_basename env (path_normalize env manifest) = ".gitmodules"))
    as [Hbase|Hbase].
  - rewrite bool_decide_eq_false_2 in Hparse by by intros [].
    destruct (fs_existsSync env (path_normalize env manifest)) eqn:Hexists;
      cbn in Hparse; [|injection Hparse as <-; left; eauto].
    right.
    destruct (fs_readFileSync env (path_normalize env manifest))
      as [manifestFile|message]; cbn in Hparse;
      [|injection Hparse as <-; left; eauto].
    right. exists manifestFile.
    pose proof (Promise_all_inv order
      ((λ submodule, processSubmoduleTag env (path submodule)) <$>
         scanManifest manifestFile)) as Hall.
    destruct (Promise_all _ _) as [tags|e']; cbn in Hparse.
    + apply resolved_Forall2, Forall2_length in Hall.
      by rewrite writeTags_all in Hparse.
    + injection Hparse as ->. destruct Hall as [i Hi].
      apply list_lookup_fmap_Some in Hi as (submodule & Hi & Hin).
      exists submodule. split_and!; [done|by eapply list_elem_of_lookup_2|done].
  - rewrite (bool_decide_eq_true_2 _ Hbase) in Hparse. cbn in Hparse.
    injection Hparse as <-. left. eauto.
Qed.

Lemma parser_exceptions_witness :
  parseSubmoduleManifest (exampleEnv brokenManifest "") [] ".gitmodules" =
    Throw (External "The process 'git' failed with exit code 128") ∧
  ∃ manifestFile submodule,
    fs_readFileSync (exampleEnv brokenManifest "") ".gitmodules" =
      Returned manifestFile ∧
    submodule ∈ scanManifest manifestFile ∧
    processSubmoduleTag (exampleEnv brokenManifest "") (path submodule) =
      Throw (External "The process 'git' failed with exit code 128").
Proof.
  assert (parseSubmoduleManifest (exampleEnv brokenManifest "") [] ".gitmodules" =
          Throw (External "The process 'git' failed with exit code 128"))
    as Hparse by (vm_compute; reflexivity).
  split; [exact Hparse|].
  destruct (parser_exceptions _ _ _ _ Hparse)
    as [[[=] _]|[(message & Hread & _)|Hfound]];
    [discriminate Hread|exact Hfound].
Defined.

(** X12: whether the parser returns or throws does not depend on the order
    in which the version resolutions complete: when it throws under one
    order, it throws under every other. *)
Theorem failure_in_any_order env order order' manifest e :
  parseSubmoduleManifest env order manifest = Throw e →
  ∃ e', parseSubmoduleManifest env order' manifest = Throw e'.
Proof.
  intros Hthrow.
  destruct (parseSubmoduleManifest env order' manifest) as [records|e'] eqn:Hother;
    [|by exists e'].
  apply parseSubmoduleManifest_inv in Hother
    as (manifestFile & tags & Hbase & Hexists & Hread & Htags & ->).
  by rewrite (parseSubmoduleManifest_resolved env order manifest manifestFile tags)
    in Hthrow.
Qed.

Lemma failure_in_any_order_witness :
  ∃ e', parseSubmoduleManifest (exampleEnv brokenManifest "") [1; 0]%nat
          ".gitmodules" = Throw e'.
Proof.
  apply (failure_in_any_order (exampleEnv brokenManifest "") [] [1; 0]%nat
           ".gitmodules"
           (External "The process 'git' failed with exit code 128")).
  vm_compute. reflexivity.
Defined.

(** X13: [processSubmoduleTag] returns a version exactly when the tag
    command ends with the exit status 0, and the version is then the output of
    that command as it is; in every other case it throws the exception of
    [exec.getExecOutput] for the tag command, be it that the command cannot be
    started or that it ends with another status.  The hash command has no
    part in the result. *)
Theorem resolution_outcomes env modulePath :
  (∀ version,
     processSubmoduleTag env modulePath = OK version ↔
     ∃ described,
       exec_process env "git" ["describe"; "--tags"]
         (path_normalize env modulePath) = Returned described ∧
       exitCode described = 0%Z ∧ version = stdout described) ∧
  (∀ e,
     processSubmoduleTag env modulePath = Throw e ↔
     (∃ message,
        exec_process env "git" ["describe"; "--tags"]
          (path_normalize env modulePath) = Failed message ∧
        e = External message) ∨
     (∃ described,
        exec_process env "git" ["describe"; "--tags"]
          (path_normalize env modulePath) = Returned described ∧
        exitCode described ≠ 0%Z ∧
        e = External (exitMessage "git" described))).
Proof.
  rewrite processSubmoduleTag_cases.
  destruct (exec_process env "git" ["describe"; "--tags"] _)
    as [described|message].
  - destruct (decide (exitCode described = 0%Z)) as [Hzero|Hfailed].
    + rewrite bool_decide_eq_false_2 by by intros []. split.
      * intros version. split; [intros [= <-]; by exists described|].
        by intros (d & [= <-] & _ & ->).
      * intros e. split; [done|].
        by intros [(m & [=] & _)|(d & [= <-] & ? & _)].
    + rewrite (bool_decide_eq_true_2 _ Hfailed). split.
      * intros version. split; [done|]. by intros (d & [= <-] & ? & _).
      * intros e. split.
        -- intros [= <-]. right. by exists described.
        -- by intros [(m & [=] & _)|(d & [= <-] & _ & ->)].
  - split.
    + intros version. split; [done|]. by intros (d & [=] & _).
    + intros e. split.
      * intros [= <-]. left. by exists message.
      * by intros [(m & [= <-] & ->)|(d & [=] & _)].
Qed.

(** X14: [main] throws exactly when the parser throws, or when the parser
    returns and the derivation of the coordinates throws, and it throws that
    exception; building the cache and the listing never fails. *)
Theorem main_exceptions env order e :
  main env order = Throw e ↔
  parseSubmoduleManifest env order (core_getInput env "manifest") = Throw e ∨
  ∃ submoduleList,
    parseSubmoduleManifest env order (core_getInput env "manifest") =
      OK submoduleList ∧
    processSubmoduleUrls submoduleList = Throw e.
Proof.
  unfold main.
  destruct (parseSubmoduleManifest env order (core_getInput env "manifest"))
    as [submoduleList|e'] eqn:Hparse; cbn [andThen].
  2: { split; [intros [= <-]; by left|]. by intros [[= <-]|(? & [=] & _)]. }
  unfold processSubmoduleUrls, processSubmoduleCache.
  destruct (processSubmoduleUrls_from_cases [] submoduleList)
    as [(purls & Hpurls & Hurls)|(s & e' & _ & Hs & Hurls)];
    rewrite Hurls; cbn [andThen app].
  - rewrite (processSubmoduleCache_from_derived _ _ _ Hpurls). cbn [andThen].
    destruct (addPurls_resolved (foldl PackageCache_package ∅ purls)
                (core_getInput env "development-deps") purls
                (new_Manifest (path_basename env (core_getInput env "manifest"))
                              (core_getInput env "manifest")))
      as (listing & -> & _).
    { intros purl Hpurl. rewrite lookup_packages. by rewrite decide_True. }
    cbn [andThen]. split; [done|].
    intros [[=]|(l & [= <-] & Hthrow)]. by rewrite Hurls in Hthrow.
  - split.
    + intros [= <-]. right. by exists submoduleList.
    + intros [[=]|(l & [= <-] & Hthrow)]. rewrite Hurls in Hthrow.
      by injection Hthrow as <-.
Qed.

(** X15: the version is not checked where it is resolved: when git answers
    with an empty output the parser returns a record with an empty version,
    and the run aborts at the derivation of the coordinates. *)
Theorem empty_version_aborts env order records submodule :
  parseSubmoduleManifest env order (core_getInput env "manifest") = OK records →
  submodule ∈ records → tag submodule = "" →
  ∃ e, processSubmoduleUrls records = Throw e ∧ main env order = Throw e.
Proof.
  intros Hparse Hin Htag. unfold main. rewrite Hparse. cbn [andThen].
  unfold processSubmoduleUrls.
  destruct (processSubmoduleUrls_from_cases [] records)
    as [(purls & Hpurls & Hurls)|(s & e & _ & Hs & Hurls)].
  - apply list_elem_of_lookup_1 in Hin as [i Hi].
    destruct (Forall2_lookup_l _ _ _ _ _ Hpurls Hi) as (purl & _ & Hderive).
    unfold processSubmodule in Hderive.
    rewrite bool_decide_eq_true_2 in Hderive by tauto. done.
  - exists e. by rewrite Hurls.
Qed.

Lemma empty_version_aborts_witness :
  parseSubmoduleManifest (silentEnv exampleManifest) [] ".gitmodules" =
    OK [setTag recordA ""; setTag recordB ""] ∧
  ∃ e, processSubmoduleUrls [setTag recordA ""; setTag recordB ""] = Throw e ∧
       main (silentEnv exampleManifest) [] = Throw e.
Proof.
  assert (parseSubmoduleManifest (silentEnv exampleManifest) [] ".gitmodules" =
          OK [setTag recordA ""; setTag recordB ""]) as Hparse
    by (vm_compute; reflexivity).
  split; [exact Hparse|].
  apply (empty_version_aborts (silentEnv exampleManifest) [] _ (setTag recordA "")
           Hparse); [apply list_elem_of_here|reflexivity].
Defined.

(** ** Further properties of the listing *)

Section Scopes.

Implicit Types (s piece : string) (c : ascii).

Lemma first_piece_prefix c s piece pieces :
  split c s = piece :: pieces → String.prefix piece s = true.
Proof.
  intros Hsplit. destruct (first_split c s) as (rest & Heq & _).
  rewrite Hsplit in Heq. cbn in Heq. rewrite Heq. apply prefix_app.
Qed.

(** An entry of a separated list occurs in the list as a substring. *)
Lemma piece_included c s piece :
  piece ∈ split c s → includes s piece = true.
Proof.
  revert piece. induction s as [|d s IH]; intros piece.
  - cbn [split]. by intros ->%list_elem_of_singleton.
  - cbn [split]. destruct (Ascii.eqb d c) eqn:Hd.
    + intros [->|Hin]%elem_of_cons; [done|].
      cbn [includes]. rewrite (IH _ Hin). apply orb_true_r.
    + pose proof (split_nonempty c s) as Hne.
      destruct (split c s) as [|p0 ps] eqn:Hsplit; [done|].
      intros [->|Hin]%elem_of_cons.
      * apply includes_prefix. cbn. destruct (ascii_dec d d); [|done].
        by eapply first_piece_prefix.
      * cbn [includes]. rewrite IH; [apply orb_true_r|by right].
Qed.

Lemma includes_empty piece : piece ≠ "" → includes "" piece = false.
Proof. by destruct piece. Qed.

Lemma processSubmodule_name submodule purl :
  processSubmodule submodule = OK purl → purl_name purl ≠ "".
Proof.
  unfold processSubmodule. case_bool_decide; [done|].
  destruct (split "/"%char (url submodule) !! 4%nat); [|done].
  destruct (split "/"%char (url submodule) !! 2%nat) as [host|]; [|done].
  case_bool_decide; [|done]. unfold new_PackageURL.
  case_bool_decide as Hvalid; [done|]. intros [= <-]. cbn. tauto.
Qed.

Lemma addPurls_names cache developmentDeps purls manifest listing :
  addPurls cache developmentDeps manifest purls = OK listing →
  manifest_name listing = manifest_name manifest ∧
  manifest_file listing = manifest_file manifest.
Proof.
  revert manifest. induction purls as [|purl purls IH]; intros manifest;
    cbn [addPurls]; [by intros [= <-]|].
  unfold addPurl. destruct (PackageCache_lookupPackage cache purl); [|done].
  cbn [andThen]. by intros [-> ->]%IH.
Qed.

End Scopes.

(** X16: the documented use of the development-deps input works: a
    dependency of the listing whose name is one of the comma-separated entries
    of the input is scoped as development. *)
Theorem listed_name_is_development env order snapshot listing purl dep :
  main env order = OK snapshot → listing ∈ manifests snapshot →
  resolved listing !! purl = Some dep →
  Package_name (dep_package dep) ∈
    split ","%char (core_getInput env "development-deps") →
  dep_scope dep = development.
Proof.
  intros (_ & purls & listing' & _ & _ & Hlisting & Hresolved)%main_inv Hin Hdep
    Hname.
  rewrite Hlisting in Hin. apply list_elem_of_singleton in Hin as ->.
  rewrite Hresolved in Hdep. destruct (decide (purl ∈ purls)); [|done].
  injection Hdep as <-. unfold entryOf, scopeOf in *. cbn [dep_scope dep_package] in *.
  by rewrite (piece_included _ _ _ Hname).
Qed.

Lemma listed_name_is_development_witness :
  main (exampleEnv exampleManifest "cpputest,dep-b") [] =
    OK (exampleSnapshot listedListing) ∧
  dep_scope (entryOf "cpputest,dep-b" purlB) = development.
Proof.
  assert (main (exampleEnv exampleManifest "cpputest,dep-b") [] =
          OK (exampleSnapshot listedListing)) as Hmain
    by (vm_compute; reflexivity).
  split; [exact Hmain|].
  apply (listed_name_is_development _ _ _ listedListing purlB _ Hmain);
    [apply list_elem_of_here|vm_compute; reflexivity|].
  vm_compute. apply list_elem_of_further, list_elem_of_here.
Defined.

(** X17: when the development-deps input is empty, as when it is not given,
    every dependency of the listing is scoped as runtime. *)
Theorem no_input_all_runtime env order snapshot listing purl dep :
  main env order = OK snapshot → core_getInput env "development-deps" = "" →
  listing ∈ manifests snapshot → resolved listing !! purl = Some dep →
  dep_scope dep = runtime.
Proof.
  intros (submodules & purls & listing' & _ & Hpurls & Hlisting & Hresolved)%main_inv
    Hinput Hin Hdep.
  rewrite Hlisting in Hin. apply list_elem_of_singleton in Hin as ->.
  rewrite Hresolved in Hdep. destruct (decide (purl ∈ purls)) as [Hpurl|]; [|done].
  injection Hdep as <-. rewrite Hinput.
  apply list_elem_of_lookup_1 in Hpurl as [i Hi].
  destruct (Forall2_lookup_r _ _ _ _ _ Hpurls Hi) as (s & _ & Hderive).
  apply processSubmodule_name in Hderive.
  unfold entryOf, scopeOf. cbn [dep_scope Package_name new_Package packageURL].
  by rewrite includes_empty.
Qed.

Lemma no_input_all_runtime_witness :
  main (exampleEnv exampleManifest "") [] = OK (exampleSnapshot runtimeListing) ∧
  dep_scope (entryOf "" purlA) = runtime.
Proof.
  assert (main (exampleEnv exampleManifest "") [] =
          OK (exampleSnapshot runtimeListing)) as Hmain
    by (vm_compute; reflexivity).
  split; [exact Hmain|].
  apply (no_input_all_runtime _ _ _ runtimeListing purlA _ Hmain);
    [reflexivity|apply list_elem_of_here|vm_compute; reflexivity].
Defined.

(** X18: the snapshot [main] hands over names the tool and the version of
    package.json, and holds one manifest: its name is the base name of the
    manifest input as given, its file that input, and it has an entry exactly
    for the coordinates derived from the records of the parser. *)
Theorem snapshot_contents env order snapshot :
  main env order = OK snapshot →
  detector_name snapshot = "TF-RMM/git-submodule-dependency-submission" ∧
  detector_url snapshot =
    "https://github.com/TF-RMM/arm-git-submodule-dependency-submission" ∧
  detector_version snapshot = package_version env ∧
  ∃ listing records,
    manifests snapshot = [listing] ∧
    manifest_name listing = path_basename env (core_getInput env "manifest") ∧
    manifest_file listing = core_getInput env "manifest" ∧
    parseSubmoduleManifest env order (core_getInput env "manifest") = OK records ∧
    ∀ purl, is_Some (resolved listing !! purl) ↔
            ∃ record, record ∈ records ∧ processSubmodule record = OK purl.
Proof.
  intros Hmain.
  destruct (main_inv _ _ _ Hmain)
    as (records & purls & listing & Hparse & Hpurls & Hlisting & Hresolved).
  unfold main in Hmain. rewrite Hparse in Hmain. cbn [andThen] in Hmain.
  destruct (processSubmoduleUrls records) as [purls'|]; [|done].
  cbn [andThen] in Hmain.
  destruct (processSubmoduleCache records) as [cache|]; [|done].
  cbn [andThen] in Hmain.
  destruct (addPurls _ _ _ _) as [listing'|] eqn:Hadd; [|done].
  cbn [andThen] in Hmain. injection Hmain as <-.
  cbn [detector_name detector_url detector_version manifests] in *.
  injection Hlisting as ->. apply addPurls_names in Hadd as [Hname Hfile].
  split_and!; [done..|]. exists listing, records. split_and!; [done..|].
  intros purl. rewrite Hresolved. destruct (decide (purl ∈ purls)) as [Hin|Hout].
  - split; [|by eexists]. intros _.
    apply list_elem_of_lookup_1 in Hin as [i Hi].
    destruct (Forall2_lookup_r _ _ _ _ _ Hpurls Hi) as (s & Hs & Hderive).
    exists s. split; [by eapply list_elem_of_lookup_2|done].
  - split; [by intros [? [=]]|].
    intros (record & [i Hi]%list_elem_of_lookup_1 & Hderive).
    destruct (Forall2_lookup_l _ _ _ _ _ Hpurls Hi) as (p & Hp & Hderive').
    destruct Hout. apply list_elem_of_lookup_2 with i. congruence.
Qed.

Lemma snapshot_contents_witness :
  main (exampleEnv exampleManifest "dep-a") [] = OK (exampleSnapshot exampleListing) ∧
  detector_version (exampleSnapshot exampleListing) = "1.0.0" ∧
  ∃ listing records,
    manifests (exampleSnapshot exampleListing) = [listing] ∧
    manifest_name listing = ".gitmodules" ∧
    manifest_file listing = ".gitmodules" ∧
    parseSubmoduleManifest (exampleEnv exampleManifest "dep-a") [] ".gitmodules" =
      OK records ∧
    ∀ purl, is_Some (resolved listing !! purl) ↔
            ∃ record, record ∈ records ∧ processSubmodule record = OK purl.
Proof.
  assert (main (exampleEnv exampleManifest "dep-a") [] =
          OK (exampleSnapshot exampleListing)) as Hmain
    by (vm_compute; reflexivity).
  split; [exact Hmain|].
  destruct (snapshot_contents _ _ _ Hmain) as (_ & _ & Hversion & Hrest).
  split; [exact Hversion|exact Hrest].
Defined.

(** ** A run that goes through *)

Lemma processSubmodule_github submodule :
  isComplete submodule → githubUrl (url submodule) →
  ∃ purl, processSubmodule submodule = OK purl.
Proof.
  intros Hcomplete (scheme & authority & namespace & repository & rest & Hsplit &
                    Hnamespace & Hname).
  unfold processSubmodule. rewrite (isComplete_guard _ Hcomplete), Hsplit. cbn.
  rewrite bool_decide_eq_true_2 by done. unfold new_PackageURL.
  destruct Hcomplete as (_ & _ & _ & Htag).
  rewrite bool_decide_eq_false_2; [by eexists|].
  intros [|[|[[=]|[|]]]]; done.
Qed.

(** X19: a run goes through when nothing stands in its way: for a
    well-formed manifest of complete sections that passes the guard, whose
    urls are on github.com with a namespace and a repository name, and whose
    versions all resolve to a non-empty output, [main] hands over a snapshot;
    its listing has an entry for the coordinate of every section. *)
Theorem main_succeeds env order preamble sections versions :
  path_basename env (path_normalize env (core_getInput env "manifest")) =
    ".gitmodules" →
  fs_existsSync env (path_normalize env (core_getInput env "manifest")) = true →
  fs_readFileSync env (path_normalize env (core_getInput env "manifest")) =
    Returned (manifestText preamble sections) →
  Forall (λ line, neutralLine line = true) preamble →
  Forall (λ sec, completeSection sec = true) sections →
  Forall (λ sec, githubUrl (trim (urlValue (sectionBody sec)))) sections →
  Forall2 (λ sec version,
             processSubmoduleTag env (trim (pathValue (sectionBody sec))) =
             OK version ∧ version ≠ "") sections versions →
  ∃ snapshot listing,
    main env order = OK snapshot ∧ manifests snapshot = [listing] ∧
    ∀ i sec version,
      sections !! i = Some sec → versions !! i = Some version →
      ∃ purl, processSubmodule (setTag (recordOf sec) version) = OK purl ∧
              is_Some (resolved listing !! purl).
Proof.
  intros Hbase Hexists Hread Hpreamble Hsections Hurls Hversions.
  set (records := zip_with setTag (recordOf <$> sections) versions).
  assert (parseSubmoduleManifest env order (core_getInput env "manifest") =
          OK records) as Hparse.
  { unfold records. rewrite <- (scanManifest_wellFormed preamble sections) by done.
    apply parseSubmoduleManifest_resolved; [done..|].
    rewrite scanManifest_wellFormed by done. apply Forall2_fmap_l.
    eapply Forall2_impl; [exact Hversions|]. by intros sec version [? _]. }
  assert (∀ i sec version,
            sections !! i = Some sec → versions !! i = Some version →
            ∃ purl, processSubmodule (setTag (recordOf sec) version) = OK purl)
    as Hderive.
  { intros i sec version Hsec Hversion. apply processSubmodule_github.
    - destruct (Forall2_lookup_lr _ _ _ _ _ _ Hversions Hsec Hversion) as [_ Hne].
      rewrite Forall_forall in Hsections.
      assert (completeSection sec = true) as Hcomplete
        by by eapply Hsections, list_elem_of_lookup_2.
      pose proof (scanLines_section [] sec Hcomplete) as Hscan.
      pose proof (scanLines_emitted [] emptySubmodule (sectionLines sec)
                    (Forall_nil_2 _) eq_refl) as Hemitted.
      rewrite Hscan in Hemitted. apply Forall_singleton in Hemitted as [Hall _].
      apply hasAllFields_true in Hall. unfold isComplete, setTag, recordOf in *.
      cbn [name path url tag] in *. tauto.
    - rewrite Forall_forall in Hurls. by eapply Hurls, list_elem_of_lookup_2. }
  assert (∃ purls, Forall2 (λ submodule purl, processSubmodule submodule = OK purl)
                           records purls) as [purls Hpurls].
  { destruct (derivation_cases records)
      as [?|(before & failed & after & e & Heq & _ & He)]; [done|].
    assert (records !! length before = Some failed) as Hfailed
      by (rewrite Heq; by apply list_lookup_middle).
    apply lookup_zip_with_Some in Hfailed as (r & version & -> & Hr & Hversion).
    apply list_lookup_fmap_Some in Hr as (sec & -> & Hsec).
    destruct (Hderive _ _ _ Hsec Hversion) as [purl Hpurl]. congruence. }
  destruct (addPurls_resolved (foldl PackageCache_package ∅ purls)
              (core_getInput env "development-deps") purls
              (new_Manifest (path_basename env (core_getInput env "manifest"))
                            (core_getInput env "manifest")))
    as (listing & Hadd & Hlisting).
  { intros purl Hpurl. rewrite lookup_packages. by rewrite decide_True. }
  eexists _, listing. split_and!.
  - unfold main. rewrite Hparse. cbn [andThen].
    unfold processSubmoduleUrls, processSubmoduleCache.
    rewrite (processSubmoduleUrls_from_ok [] _ _ Hpurls).
    rewrite (processSubmoduleCache_from_derived _ _ _ Hpurls).
    cbn [andThen app]. rewrite Hadd. reflexivity.
  - reflexivity.
  - intros i sec version Hsec Hversion.
    assert (records !! i = Some (setTag (recordOf sec) version)) as Hrecord.
    { apply lookup_zip_with_Some. exists (recordOf sec), version.
      by rewrite list_lookup_fmap, Hsec. }
    destruct (Forall2_lookup_l _ _ _ _ _ Hpurls Hrecord) as (purl & Hpurl & Hok).
    exists purl. split; [done|]. rewrite Hlisting.
    rewrite decide_True by by eapply list_elem_of_lookup_2. by eexists.
Qed.

Lemma main_succeeds_witness :
  ∃ snapshot listing,
    main (exampleEnv (manifestText [] exampleSections) "") [1; 0]%nat =
      OK snapshot ∧
    manifests snapshot = [listing] ∧
    is_Some (resolved listing !! purlA) ∧ is_Some (resolved listing !! purlB).
Proof.
  destruct (main_succeeds (exampleEnv (manifestText [] exampleSections) "")
              [1; 0]%nat [] exampleSections ["v1.2.3"; "v0.9.0"])
    as (snapshot & listing & Hmain & Hlisting & Hentries).
  - vm_compute. reflexivity.
  - vm_compute. reflexivity.
  - vm_compute. reflexivity.
  - constructor.
  - repeat constructor.
  - repeat constructor.
    + exists "https:", "", "org", "dep-a.git", []. by split_and!.
    + exists "https:", "", "org", "dep-b.git", []. by split_and!.
  - repeat constructor; done.
  - exists snapshot, listing. split_and!; [exact Hmain|exact Hlisting| |].
    + destruct (Hentries 0%nat _ "v1.2.3" eq_refl eq_refl) as (purl & Hpurl & Hentry).
      vm_compute in Hpurl. by injection Hpurl as <-.
    + destruct (Hentries 1%nat _ "v0.9.0" eq_refl eq_refl) as (purl & Hpurl & Hentry).
      vm_compute in Hpurl. by injection Hpurl as <-.
Defined.
